(** * gomjpeg: the stream control core of the MJPEG client

    A shallow embedding of [package gomjpeg] (the client with
    [loadEnvOverrides], [parseContentTypeAndBoundary], [readImageHeaders],
    [processAndSendImage], [decodeStream], [startFetching] and the public
    [Start]/[Stop]/[Pause]/[Resume]/[ResetTimer] operations), together
    with the earlier draft of [decodeStream] that the repository still
    carries.

    Go strings and byte slices are Rocq [string]s (sequences of 8-bit
    [ascii] values), Go [int] is [Z] within the 64-bit range, channels are
    explicit buffers, goroutines are entries of thread tables moved by a
    scheduler. *)

From Stdlib Require Import ZArith Lia Bool Ascii String List.
From stdpp Require Import base option list strings gmap.

Open Scope string_scope.
Open Scope list_scope.
Open Scope Z_scope.

#[global] Arguments String.append !s1 s2 : simpl nomatch.

(** ** The parts of the Go standard library the client calls *)

Module Go.

Definition code (c : ascii) : nat := nat_of_ascii c.

Definition nl : ascii := "010"%char.

(** [len(s)] as a Go [int]. *)
Definition len (s : string) : Z := Z.of_nat (String.length s).

(** [strings.HasPrefix(s, prefix)]. *)
Definition HasPrefix (s prefix : string) : bool := String.prefix prefix s.

Fixpoint drop (n : nat) (s : string) : string :=
  match n, s with
  | S n', String _ r => drop n' r
  | _, _ => s
  end.

(** [strings.TrimPrefix(s, prefix)]. *)
Definition TrimPrefix (s prefix : string) : string :=
  if HasPrefix s prefix then drop (String.length prefix) s else s.

(** [strings.Contains(s, substr)]. *)
Fixpoint Contains (s substr : string) : bool :=
  String.prefix substr s
  || match s with
     | EmptyString => false
     | String _ r => Contains r substr
     end.

(** [strings.Split(s, sep)] for a separator of one byte, as in
    [strings.Split(contentType, ";")]. *)
Fixpoint Split (s : string) (sep : ascii) : list string :=
  match s with
  | EmptyString => [EmptyString]
  | String c r =>
      if Ascii.eqb c sep then EmptyString :: Split r sep
      else match Split r sep with
           | h :: t => String c h :: t
           | [] => [String c EmptyString]
           end
  end.

(** The white space of [unicode.IsSpace] (and of [fmt]'s scanner):
    the six ASCII characters, U+0085, U+00A0, U+1680, U+2000..U+200A,
    U+2028, U+2029, U+202F, U+205F and U+3000, in their UTF-8
    encodings. *)
Definition asciiSpace (c : ascii) : bool :=
  ((9 <=? code c)%nat && (code c <=? 13)%nat) || (code c =? 32)%nat.

Definition space2 (c d : ascii) : bool :=
  (code c =? 194)%nat && ((code d =? 133)%nat || (code d =? 160)%nat).

Definition space3 (c d e : ascii) : bool :=
  ((code c =? 225)%nat && (code d =? 154)%nat && (code e =? 128)%nat)
  || ((code c =? 226)%nat && (code d =? 128)%nat
      && (((128 <=? code e)%nat && (code e <=? 138)%nat)
          || (code e =? 168)%nat || (code e =? 169)%nat || (code e =? 175)%nat))
  || ((code c =? 226)%nat && (code d =? 129)%nat && (code e =? 159)%nat)
  || ((code c =? 227)%nat && (code d =? 128)%nat && (code e =? 128)%nat).

(** [strings.TrimLeftFunc(s, unicode.IsSpace)]: runes are decoded from
    the front; an invalid byte decodes to U+FFFD, which is no space. *)
Fixpoint trimLeftSpace (s : string) : string :=
  match s with
  | EmptyString => EmptyString
  | String c r =>
      if asciiSpace c then trimLeftSpace r
      else match r with
           | String d r2 =>
               if space2 c d then trimLeftSpace r2
               else match r2 with
                    | String e r3 => if space3 c d e then trimLeftSpace r3 else s
                    | EmptyString => s
                    end
           | EmptyString => s
           end
  end.

(** [strings.TrimRightFunc(s, unicode.IsSpace)] on the reversed string:
    [utf8.DecodeLastRuneInString] accepts a rune exactly when its
    encoding is a suffix. *)
Fixpoint trimLeftSpaceRev (s : string) : string :=
  match s with
  | EmptyString => EmptyString
  | String e r =>
      if asciiSpace e then trimLeftSpaceRev r
      else match r with
           | String d r2 =>
               if space2 d e then trimLeftSpaceRev r2
               else match r2 with
                    | String c r3 => if space3 c d e then trimLeftSpaceRev r3 else s
                    | EmptyString => s
                    end
           | EmptyString => s
           end
  end.

Fixpoint revOnto (s acc : string) : string :=
  match s with
  | EmptyString => acc
  | String c r => revOnto r (String c acc)
  end.

Definition reverse (s : string) : string := revOnto s EmptyString.

(** [strings.TrimSpace(s)]. *)
Definition TrimSpace (s : string) : string :=
  reverse (trimLeftSpaceRev (reverse (trimLeftSpace s))).

(** The range of Go's [int] (64 bits) and the wrap-around of its
    arithmetic. *)
Definition minInt : Z := - 2 ^ 63.
Definition maxInt : Z := 2 ^ 63 - 1.
Definition wrap64 (z : Z) : Z := (z + 2 ^ 63) mod 2 ^ 64 - 2 ^ 63.

Definition isDigit (c : ascii) : bool := (48 <=? code c)%nat && (code c <=? 57)%nat.
Definition digitVal (c : ascii) : Z := Z.of_nat (code c) - 48.

(** The value of a run of decimal digits; [None] when a byte is not a
    digit. *)
Fixpoint digits (s : string) (acc : Z) : option Z :=
  match s with
  | EmptyString => Some acc
  | String c r => if isDigit c then digits r (10 * acc + digitVal c) else None
  end.

Definition inInt (z : Z) : bool := (minInt <=? z) && (z <=? maxInt).

(** [strconv.ParseInt(s, 10, 64)] and [strconv.Atoi(s)]: an optional
    sign, then one or more decimal digits, the value within [int]. *)
Definition Atoi (s : string) : option Z :=
  let signed (neg : bool) (d : string) :=
    match d with
    | EmptyString => None
    | _ => match digits d 0 with
           | Some v => let v' := if neg then - v else v in
                       if inInt v' then Some v' else None
           | None => None
           end
    end in
  match s with
  | EmptyString => None
  | String c r =>
      if Ascii.eqb c "-" then signed true r
      else if Ascii.eqb c "+" then signed false r
      else signed false s
  end.

(** [strconv.ParseBool(str)]. *)
Definition ParseBool (str : string) : option bool :=
  if existsb (String.eqb str) ["1"; "t"; "T"; "TRUE"; "true"; "True"] then Some true
  else if existsb (String.eqb str) ["0"; "f"; "F"; "FALSE"; "false"; "False"] then Some false
  else None.

(** [time.Duration(seconds) * time.Second]: nanoseconds in an [int64]. *)
Definition Seconds (seconds : Z) : Z := wrap64 (seconds * 1000000000).

(** A Go [error] value; only its presence is ever inspected, except
    that a line read tells [io.EOF] from the rest. *)
Inductive error : Set :=
  | EOF
  | ErrOther (msg : string).

(** A [*bufio.Reader] over a response body, seen from the goroutine
    that reads it: the bytes the body still delivers, and the error
    the transport reports once they are used up ([io.EOF] when the
    server ends the stream, something else when the connection
    breaks). How long a read waits for its bytes is no part of the
    reader: it is the scheduler below that lets other goroutines run
    while a decoder waits in a read. *)
Record Reader : Set := mkReader {
  unread : string;
  atEnd : error
}.

(** The first line of [s] with its newline, and what follows it. *)
Fixpoint cutLine (s : string) : option (string * string) :=
  match s with
  | EmptyString => None
  | String c r =>
      if Ascii.eqb c nl then Some (String c EmptyString, r)
      else match cutLine r with
           | Some (l, r') => Some (String c l, r')
           | None => None
           end
  end.

(** [reader.ReadString('\n')]: the line up to and with the newline;
    without a newline, whatever is left and the reader's error. *)
Definition ReadString (r : Reader) : string * option error * Reader :=
  match cutLine (unread r) with
  | Some (line, rest) => (line, None, mkReader rest (atEnd r))
  | None => (unread r, Some (atEnd r), mkReader EmptyString (atEnd r))
  end.

Fixpoint take (n : nat) (s : string) : string :=
  match n, s with
  | S n', String c r => String c (take n' r)
  | _, _ => EmptyString
  end.

(** [io.ReadFull(reader, buf)] for [len(buf) = n]: exactly [n] bytes,
    or an error ([io.ErrUnexpectedEOF] after a partial read). *)
Definition ReadFull (r : Reader) (n : nat) : string * option error * Reader :=
  if (n <=? String.length (unread r))%nat
  then (take n (unread r), None, mkReader (drop n (unread r)) (atEnd r))
  else (unread r,
        Some match unread r, atEnd r with
             | String _ _, EOF => ErrOther "unexpected EOF"
             | _, e => e
             end,
        mkReader EmptyString (atEnd r)).

(** White space other than the newline, skipped rune by rune as
    [fmt]'s scanner does for a space of the format. *)
Fixpoint skipBlanks (s : string) : string :=
  match s with
  | EmptyString => EmptyString
  | String c r =>
      if asciiSpace c then (if Ascii.eqb c nl then s else skipBlanks r)
      else match r with
           | String d r2 =>
               if space2 c d then skipBlanks r2
               else match r2 with
                    | String e r3 => if space3 c d e then skipBlanks r3 else s
                    | EmptyString => s
                    end
           | EmptyString => s
           end
  end.

(** The longest run of the digits [%d] accepts, ["0123456789"]; a
    ['_'] ends it like any other byte (the scanner takes underscores
    only for [%v]). *)
Fixpoint spanNumber (s : string) : string :=
  match s with
  | String c r => if isDigit c then String c (spanNumber r) else EmptyString
  | EmptyString => EmptyString
  end.

(** [fmt.Sscanf(str, lit + " %d", &v)] for a literal [lit] without
    spaces or verbs: [Some v] when the integer was scanned and stored,
    [None] when the scan failed and [v] was left alone. The space of
    the format needs at least one space of the input; the token of
    [%d] is an optional sign and the digits that follow it, parsed in
    base 10, and what comes behind the token is not looked at. *)
Definition Sscanf_d (str lit : string) : option Z :=
  if HasPrefix str lit then
    let s := drop (String.length lit) str in
    let s' := skipBlanks s in
    if (String.length s' <? String.length s)%nat then
      match s' with
      | EmptyString => None
      | String c r =>
          let sign := Ascii.eqb c "-" || Ascii.eqb c "+" in
          let tok := spanNumber (if sign then r else s') in
          match tok with
          | EmptyString => None
          | _ => Atoi (if sign then String c tok else tok)
          end
      end
    else None
  else None.

End Go.

(** ** Data model *)

(** [type StatusCode int] with its [iota] constants, in their order. *)
Inductive StatusCode : Set :=
  | StatusPlaying
  | StatusStopped
  | StatusError
  | StatusPaused.

(** [type StreamControl int]. *)
Inductive StreamControl : Set :=
  | StartStream
  | StopStream
  | PauseStream
  | ResumeStream.

#[global] Instance StatusCode_eq_dec : EqDecision StatusCode.
Proof. solve_decision. Defined.

#[global] Instance StreamControl_eq_dec : EqDecision StreamControl.
Proof. solve_decision. Defined.

(** [type MjpegOpts struct]. *)
Record MjpegOpts : Set := mkOpts {
  URL : string;
  AutoStopTimer : Z;
  Resize : bool;
  Width : Z;
  Height : Z;
  EnableLog : bool
}.

(** A buffered channel: its capacity, the values sent and not yet
    received (oldest first) and whether it has been closed. *)
Record Chan (A : Type) : Type := mkChan {
  cap : nat;
  buf : list A;
  closed : bool
}.
Arguments mkChan {A} _ _ _.
Arguments cap {A} _.
Arguments buf {A} _.
Arguments closed {A} _.

(** [make(chan A, n)]. *)
Definition make {A : Type} (n : nat) : Chan A := mkChan n [] false.

(** The send of a [select] that has a [default] case: the value is
    buffered when there is room, the [default] case runs when there is
    none, and a closed channel makes the send panic. *)
Inductive SendOutcome (A : Type) : Type :=
  | Sent (c : Chan A)
  | Full
  | SendOnClosed.
Arguments Sent {A} _.
Arguments Full {A}.
Arguments SendOnClosed {A}.

Definition trySend {A : Type} (c : Chan A) (v : A) : SendOutcome A :=
  if closed c then SendOnClosed
  else if (length (buf c) <? cap c)%nat then Sent (mkChan (cap c) (buf c ++ [v]) false)
  else Full.

(** [close(c)]; [None] is the panic on a channel already closed. *)
Definition close {A : Type} (c : Chan A) : option (Chan A) :=
  if closed c then None else Some (mkChan (cap c) (buf c) true).

(** A receive by the consumer of the channel: the oldest buffered
    value, if there is one. *)
Definition receive {A : Type} (c : Chan A) : option (A * Chan A) :=
  match buf c with
  | v :: rest => Some (v, mkChan (cap c) rest (closed c))
  | [] => None
  end.

(** A [*time.Timer] made by [time.AfterFunc]: its duration in
    nanoseconds and whether it is still pending. *)
Inductive TimerState : Set :=
  | TimerArmed
  | TimerStopped
  | TimerFired.

Record Timer : Set := mkTimer {
  duration : Z;
  tstate : TimerState
}.

Definition armed (t : Timer) : bool :=
  match tstate t with TimerArmed => true | _ => false end.

(** [t.Stop()]. *)
Definition stopTimer (t : Timer) : Timer :=
  match tstate t with
  | TimerArmed => mkTimer (duration t) TimerStopped
  | _ => t
  end.

(** ** Configuration from the environment *)

(** [os.Getenv(key)]: the empty string when the variable is not set. *)
Definition Getenv (env : gmap string string) (key : string) : string :=
  default "" (env !! key).

(** [godotenv.Load()]: the variables of the [.env] file ([∅] when there
    is none) enter the environment, those already set keep their value. *)
Definition godotenvLoad (dotenv env : gmap string string) : gmap string string :=
  env ∪ dotenv.

(** [loadEnvOverrides(opts *MjpegOpts)], as the options it leaves. *)
Definition loadEnvOverrides (env : gmap string string) (opts : MjpegOpts) : MjpegOpts :=
  let opts :=
    let url := Getenv env "MJPEG_URL" in
    if negb (String.eqb url "")
    then mkOpts url (AutoStopTimer opts) (Resize opts) (Width opts) (Height opts) (EnableLog opts)
    else opts in
  let opts :=
    let autoStopTimer := Getenv env "MJPEG_AUTOSTOP_TIMER" in
    if negb (String.eqb autoStopTimer "")
    then match Go.Atoi autoStopTimer with
         | Some val => mkOpts (URL opts) val (Resize opts) (Width opts) (Height opts) (EnableLog opts)
         | None => opts
         end
    else opts in
  let opts :=
    let resize := Getenv env "MJPEG_RESIZE" in
    if negb (String.eqb resize "")
    then match Go.ParseBool resize with
         | Some val => mkOpts (URL opts) (AutoStopTimer opts) val (Width opts) (Height opts) (EnableLog opts)
         | None => opts
         end
    else opts in
  let opts :=
    let width := Getenv env "MJPEG_WIDTH" in
    if negb (String.eqb width "")
    then match Go.Atoi width with
         | Some val => mkOpts (URL opts) (AutoStopTimer opts) (Resize opts) val (Height opts) (EnableLog opts)
         | None => opts
         end
    else opts in
  let opts :=
    let height := Getenv env "MJPEG_HEIGHT" in
    if negb (String.eqb height "")
    then match Go.Atoi height with
         | Some val => mkOpts (URL opts) (AutoStopTimer opts) (Resize opts) (Width opts) val (EnableLog opts)
         | None => opts
         end
    else opts in
  let opts :=
    let enableLog := Getenv env "MJPEG_ENABLE_LOG" in
    if negb (String.eqb enableLog "")
    then match Go.ParseBool enableLog with
         | Some val => mkOpts (URL opts) (AutoStopTimer opts) (Resize opts) (Width opts) (Height opts) val
         | None => opts
         end
    else opts in
  opts.

(** ** The boundary token *)

(** The [for _, part := range parts] loop of
    [parseContentTypeAndBoundary], with its [break]. *)
Fixpoint boundaryLoop (parts : list string) (boundary : string) : string :=
  match parts with
  | [] => boundary
  | part :: parts' =>
      let part := Go.TrimSpace part in
      if Go.HasPrefix part "boundary="
      then "--" +:+ Go.TrimPrefix part "boundary="
      else boundaryLoop parts' boundary
  end.

(** [parseContentTypeAndBoundary(contentType) (string, error)]. *)
Definition parseContentTypeAndBoundary (contentType : string) : string * option Go.error :=
  let boundary := "" in
  let boundary :=
    if Go.HasPrefix contentType "multipart/x-mixed-replace"
    then boundaryLoop (Go.Split contentType ";") boundary
    else boundary in
  let boundary := if String.eqb boundary "" then "--frame" else boundary in
  (boundary, None).

(** ** The client and the goroutines around it *)

Section Client.

(** The decoded image ([image.Image]), the JPEG decoder ([jpeg.Decode],
    [None] for a payload it rejects) and the server behind
    [http.Get(url)]: [None] when the request fails, otherwise the
    [Content-Type] header and the body. *)
Context {Image : Type}.
Variable jpegDecode : string -> option Image.
Variable httpGet : string -> option (string * Go.Reader).

(** [type Mjpeg struct]. [statusChannel] is a channel of capacity 1
    that nothing closes, given by the values waiting in it;
    [ImageStream] is [None] while the field is [nil]; [stopDecodeCh]
    carries no value and is given by whether it has been closed; [wg]
    is the counter of the wait group; [timer] points into the timers of
    the runtime. [internalCH] has no buffer: the sends waiting on it
    are goroutines, kept with the goroutines below. *)
Record Mjpeg : Type := mkMjpeg {
  opts : MjpegOpts;
  statusChannel : list StatusCode;
  statusCode : StatusCode;
  ImageStream : option (Chan Image);
  stopDecodeCh : bool;
  wg : Z;
  Mjpeg_EnableLog : bool;
  timer : option nat
}.

(** A [startFetching] goroutine: where it stands (in its [select], in
    [m.wg.Wait()], or returned) and its local [res], the response body
    it holds. *)
Inductive FetcherPC : Set :=
  | FSelect
  | FWait
  | FDone.

Record Fetcher : Set := mkFetcher {
  fpc : FetcherPC;
  res : option nat
}.

(** A [decodeStream] goroutine: its arguments, its local
    [timerStarted], whether it has returned, and whether it stands
    inside a cycle, behind the test of the status and in front of its
    reads, rather than at the [select]. *)
Record Decoder : Set := mkDecoder {
  reader : Go.Reader;
  boundary : string;
  timerStarted : bool;
  exited : bool;
  reading : bool
}.

(** The process: the client, the timers made by [time.AfterFunc], the
    image channels that [Start] closed and replaced, the response
    bodies (with [true] for a closed one), the goroutines blocked in a
    send on [m.internalCH] (the number of the call and the command),
    the [startFetching] and [decodeStream] goroutines, the calls of
    the public operations that have returned, and the length of the
    longest byte slice the runtime can give out: [make] panics, or
    the runtime gives up for want of memory, beyond it. *)
Record World : Type := mkWorld {
  m : Mjpeg;
  timers : list Timer;
  replaced : list (Chan Image);
  bodies : list bool;
  internalCH : list (nat * StreamControl);
  fetchers : list Fetcher;
  decoders : list Decoder;
  calls : nat;
  returned : list nat;
  maxAlloc : N
}.

Definition set_opts (o : MjpegOpts) (c : Mjpeg) : Mjpeg :=
  mkMjpeg o (statusChannel c) (statusCode c) (ImageStream c) (stopDecodeCh c) (wg c)
          (Mjpeg_EnableLog c) (timer c).
Definition set_ImageStream (s : option (Chan Image)) (c : Mjpeg) : Mjpeg :=
  mkMjpeg (opts c) (statusChannel c) (statusCode c) s (stopDecodeCh c) (wg c)
          (Mjpeg_EnableLog c) (timer c).
Definition set_stopDecodeCh (b : bool) (c : Mjpeg) : Mjpeg :=
  mkMjpeg (opts c) (statusChannel c) (statusCode c) (ImageStream c) b (wg c)
          (Mjpeg_EnableLog c) (timer c).
Definition set_wg (n : Z) (c : Mjpeg) : Mjpeg :=
  mkMjpeg (opts c) (statusChannel c) (statusCode c) (ImageStream c) (stopDecodeCh c) n
          (Mjpeg_EnableLog c) (timer c).
Definition set_timer (t : option nat) (c : Mjpeg) : Mjpeg :=
  mkMjpeg (opts c) (statusChannel c) (statusCode c) (ImageStream c) (stopDecodeCh c) (wg c)
          (Mjpeg_EnableLog c) t.

Definition with_m (f : Mjpeg -> Mjpeg) (w : World) : World :=
  mkWorld (f (m w)) (timers w) (replaced w) (bodies w) (internalCH w) (fetchers w)
          (decoders w) (calls w) (returned w) (maxAlloc w).
Definition set_timers (ts : list Timer) (w : World) : World :=
  mkWorld (m w) ts (replaced w) (bodies w) (internalCH w) (fetchers w)
          (decoders w) (calls w) (returned w) (maxAlloc w).
Definition set_replaced (cs : list (Chan Image)) (w : World) : World :=
  mkWorld (m w) (timers w) cs (bodies w) (internalCH w) (fetchers w)
          (decoders w) (calls w) (returned w) (maxAlloc w).
Definition set_bodies (bs : list bool) (w : World) : World :=
  mkWorld (m w) (timers w) (replaced w) bs (internalCH w) (fetchers w)
          (decoders w) (calls w) (returned w) (maxAlloc w).
Definition set_internalCH (q : list (nat * StreamControl)) (w : World) : World :=
  mkWorld (m w) (timers w) (replaced w) (bodies w) q (fetchers w)
          (decoders w) (calls w) (returned w) (maxAlloc w).
Definition set_fetchers (fs : list Fetcher) (w : World) : World :=
  mkWorld (m w) (timers w) (replaced w) (bodies w) (internalCH w) fs
          (decoders w) (calls w) (returned w) (maxAlloc w).
Definition set_decoders (ds : list Decoder) (w : World) : World :=
  mkWorld (m w) (timers w) (replaced w) (bodies w) (internalCH w) (fetchers w)
          ds (calls w) (returned w) (maxAlloc w).
Definition set_calls (n : nat) (w : World) : World :=
  mkWorld (m w) (timers w) (replaced w) (bodies w) (internalCH w) (fetchers w)
          (decoders w) n (returned w) (maxAlloc w).
Definition set_returned (r : list nat) (w : World) : World :=
  mkWorld (m w) (timers w) (replaced w) (bodies w) (internalCH w) (fetchers w)
          (decoders w) (calls w) r (maxAlloc w).

(** [m.setStatusCode(statusCode)]: the field, then the send to the
    status channel unless a value is still waiting there. *)
Definition setStatusCode (s : StatusCode) (c : Mjpeg) : Mjpeg :=
  let sc := if (length (statusChannel c) <? 1)%nat
            then statusChannel c ++ [s] else statusChannel c in
  mkMjpeg (opts c) sc s (ImageStream c) (stopDecodeCh c) (wg c)
          (Mjpeg_EnableLog c) (timer c).

(** [NewMjpeg(opts)], in a process with the given [.env] file and
    environment; [m.init()] is inlined. *)
Definition NewMjpeg (dotenv env : gmap string string) (o : MjpegOpts) : Mjpeg :=
  let env := godotenvLoad dotenv env in
  let o := loadEnvOverrides env o in
  setStatusCode StatusStopped
    (mkMjpeg o [] StatusPlaying None false 0 (EnableLog o) None).

(** The process right after [NewMjpeg], on a runtime that gives out
    byte slices of up to [limit] bytes. *)
Definition newWorld (limit : N) (dotenv env : gmap string string) (o : MjpegOpts) : World :=
  mkWorld (NewMjpeg dotenv env o) [] [] [] [] [] [] 0 [] limit.

(** [m.timer = time.AfterFunc(d, func() { m.Stop() })]. *)
Definition afterFunc (d : Z) (w : World) : World :=
  with_m (set_timer (Some (length (timers w))))
         (set_timers (timers w ++ [mkTimer d TimerArmed]) w).

(** [m.ResetTimer(duration)]. *)
Definition ResetTimer (duration : Z) (w : World) : World :=
  let w := match timer (m w) with
           | Some i => set_timers (alter stopTimer i (timers w)) w
           | None => w
           end in
  let w := if 0 <? duration
           then with_m (fun c =>
                  set_opts (mkOpts (URL (opts c)) duration (Resize (opts c)) (Width (opts c))
                                   (Height (opts c)) (EnableLog (opts c))) c) w
           else w in
  afterFunc (Go.Seconds (AutoStopTimer (opts (m w)))) w.

(** The loop of [readImageHeaders]; every line read takes at least a
    byte, so [fuel] beyond the number of unread bytes is never used
    up. *)
Fixpoint readImageHeadersLoop (fuel : nat) (rd : Go.Reader) (contentLength : Z)
  : Z * option Go.error * Go.Reader :=
  match fuel with
  | O => (0, Some (Go.ErrOther "error reading header"), rd)
  | S fuel' =>
      let '(headerLine, err, rd) := Go.ReadString rd in
      match err with
      | Some e => (0, Some (Go.ErrOther "error reading header"), rd)
      | None =>
          if String.eqb (Go.TrimSpace headerLine) "" then (contentLength, None, rd)
          else
            let contentLength :=
              if Go.HasPrefix headerLine "Content-Length:"
              then match Go.Sscanf_d headerLine "Content-Length:" with
                   | Some v => v
                   | None => contentLength
                   end
              else contentLength in
            readImageHeadersLoop fuel' rd contentLength
      end
  end.

(** [m.readImageHeaders(reader) (int, error)]. *)
Definition readImageHeaders (rd : Go.Reader) : Z * option Go.error * Go.Reader :=
  readImageHeadersLoop (S (String.length (Go.unread rd))) rd 0.

(** [m.processAndSendImage(jpegData, timerStarted)]: the process and
    [*timerStarted] it leaves; [None] is the panic of a send on a
    closed channel. A [nil] channel is never ready, which selects
    [default]. *)
Definition processAndSendImage (jpegData : string) (timerStarted : bool) (w : World)
  : option (World * bool) :=
  if Go.len jpegData =? 0 then Some (w, timerStarted)
  else match jpegDecode jpegData with
       | None => Some (w, timerStarted)
       | Some img =>
           match ImageStream (m w) with
           | None => Some (w, timerStarted)
           | Some ch =>
               match trySend ch img with
               | Sent ch' =>
                   let w := with_m (set_ImageStream (Some ch')) w in
                   if negb timerStarted && (0 <? AutoStopTimer (opts (m w)))
                   then Some (afterFunc (Go.Seconds (AutoStopTimer (opts (m w)))) w, true)
                   else Some (w, timerStarted)
               | Full => Some (w, timerStarted)
               | SendOnClosed => None
               end
           end
       end.

Definition set_reader (rd : Go.Reader) (d : Decoder) : Decoder :=
  mkDecoder rd (boundary d) (timerStarted d) (exited d) (reading d).

Definition set_reading (b : bool) (d : Decoder) : Decoder :=
  mkDecoder (reader d) (boundary d) (timerStarted d) (exited d) b.

(** The [default:] case of the [select] in [decodeStream], from the
    line read on: one frame-extraction cycle. [break] leaves the
    [select] only, so every way out of it goes round the [for] loop
    again. [None] is a panic: [make([]byte, contentLength)] with a
    negative length or with one beyond what can be allocated, or the
    send on a closed channel. *)
Definition decodePart (d : Decoder) (w : World) : option (Decoder * World) :=
  let '(line, err, rd) := Go.ReadString (reader d) in
  let d := set_reader rd d in
  match err with
  | Some Go.EOF => Some (d, w)
  | Some _ => Some (d, with_m (setStatusCode StatusError) w)
  | None =>
      if Go.Contains line (boundary d) then
        let '(contentLength, err, rd) := readImageHeaders rd in
        let d := set_reader rd d in
        match err with
        | Some _ => Some (d, with_m (setStatusCode StatusError) w)
        | None =>
            if (contentLength <? 0) || (Z.of_N (maxAlloc w) <? contentLength) then None
            else
              let '(jpegData, err, rd) := Go.ReadFull rd (Z.to_nat contentLength) in
              let d := set_reader rd d in
              match err with
              | Some _ => Some (d, with_m (setStatusCode StatusError) w)
              | None =>
                  match processAndSendImage jpegData (timerStarted d) w with
                  | Some (w, started) =>
                      Some (mkDecoder (reader d) (boundary d) started (exited d) (reading d), w)
                  | None => None
                  end
              end
        end
      else Some (d, w)
  end.

(** The whole [default:] case, run in one go: while the status is
    [StatusPaused] the goroutine sleeps and goes round again. *)
Definition decodeDefault (d : Decoder) (w : World) : option (Decoder * World) :=
  match statusCode (m w) with
  | StatusPaused => Some (d, w)
  | _ => decodePart d w
  end.

(** The [case control := <-m.internalCH] of [decodeStream]. *)
Definition decodeControl (control : StreamControl) (w : World) : World :=
  match control with
  | PauseStream => with_m (setStatusCode StatusPaused) w
  | ResumeStream => with_m (setStatusCode StatusPlaying) w
  | _ => w
  end.

(** The [case <-m.stopDecodeCh] of [decodeStream]: it returns, and the
    deferred [m.wg.Done()] runs ([None]: the counter went negative). *)
Definition decodeStop (d : Decoder) (w : World) : option (Decoder * World) :=
  if wg (m w) <? 1 then None
  else Some (mkDecoder (reader d) (boundary d) (timerStarted d) true (reading d),
             with_m (fun c => set_wg (wg c - 1) c) w).

(** The deferred function of [startFetching]; [None] is the panic of
    closing a [nil] or closed channel. *)
Definition fetchDeferred (f : Fetcher) (w : World) : option (Fetcher * World) :=
  let w := match res f with
           | Some b => set_bodies (<[b:=true]> (bodies w)) w
           | None => w
           end in
  match ImageStream (m w) with
  | None => None
  | Some ch =>
      match close ch with
      | None => None
      | Some ch' =>
          Some (mkFetcher FDone (res f),
                with_m (setStatusCode StatusStopped) (with_m (set_ImageStream (Some ch')) w))
      end
  end.

(** The [switch control] of [startFetching], up to the next point where
    the goroutine waits. *)
Definition fetchControl (f : Fetcher) (control : StreamControl) (w : World)
  : option (Fetcher * World) :=
  match control with
  | StartStream =>
      if decide (statusCode (m w) = StatusPlaying) then Some (f, w)
      else
        let w := with_m (setStatusCode StatusPlaying) w in
        match httpGet (URL (opts (m w))) with
        | None =>
            fetchDeferred (mkFetcher (fpc f) None) (with_m (setStatusCode StatusError) w)
        | Some (contentType, body) =>
            let f := mkFetcher (fpc f) (Some (length (bodies w))) in
            let w := set_bodies (bodies w ++ [false]) w in
            let '(boundary, err) := parseContentTypeAndBoundary contentType in
            match err with
            | Some _ => fetchDeferred f (with_m (setStatusCode StatusError) w)
            | None =>
                let w := with_m (fun c => set_wg (wg c + 1) c) w in
                Some (f, set_decoders (decoders w ++ [mkDecoder body boundary false false false]) w)
            end
        end
  | StopStream =>
      if stopDecodeCh (m w) then None
      else Some (mkFetcher FWait (res f), with_m (set_stopDecodeCh true) w)
  | PauseStream => Some (f, with_m (setStatusCode StatusPaused) w)
  | ResumeStream => Some (f, with_m (setStatusCode StatusPlaying) w)
  end.

(** A goroutine arrives at [m.internalCH <- control] and waits there
    for a receiver. *)
Definition blockOn (control : StreamControl) (w : World) : World :=
  set_calls (S (calls w)) (set_internalCH (internalCH w ++ [(calls w, control)]) w).

(** [m.Start()] up to its send: the channel handed out before is
    closed and replaced, a [startFetching] goroutine is started.
    [None] is the panic of closing a closed channel. *)
Definition Start (w : World) : option World :=
  let fresh (w : World) : World :=
    blockOn StartStream
      (set_fetchers (fetchers w ++ [mkFetcher FSelect None])
         (with_m (set_ImageStream (Some (make 1))) w)) in
  match ImageStream (m w) with
  | None => Some (fresh w)
  | Some ch =>
      match close ch with
      | None => None
      | Some ch' => Some (fresh (set_replaced (replaced w ++ [ch']) w))
      end
  end.

(** [m.Stop()], [m.Pause()] and [m.Resume()]: a single send each. *)
Definition Stop (w : World) : World := blockOn StopStream w.
Definition Pause (w : World) : World := blockOn PauseStream w.
Definition Resume (w : World) : World := blockOn ResumeStream w.

(** The receiver's side of a send on [m.internalCH]: the [k]-th
    waiting sender hands its command over, and its call returns. *)
Definition takeSend (k : nat) (w : World) : option (StreamControl * World) :=
  match internalCH w !! k with
  | Some (id, control) =>
      Some (control,
            set_returned (returned w ++ [id]) (set_internalCH (delete k (internalCH w)) w))
  | None => None
  end.

(** ** Scheduling *)

(** What one goroutine does between two points where another one can
    come in. A cycle of a decoder is there twice: in one go
    ([DecoderDefault]), and in two pieces, the test of the status
    ([DecoderBegin]) and, when the line read has stopped waiting,
    the reads and the send ([DecoderFinish]). The reads touch nothing
    but the goroutine's own reader, so that whatever the others do
    while a read waits is done between the two pieces. *)
Inductive Action : Set :=
  | CallStart
  | CallStop
  | CallPause
  | CallResume
  | CallResetTimer (duration : Z)
  | Fire (i : nat)
  | FetcherRecv (f k : nat)
  | FetcherWake (f : nat)
  | DecoderRecv (d k : nat)
  | DecoderStop (d : nat)
  | DecoderDefault (d : nat)
  | DecoderBegin (d : nat)
  | DecoderFinish (d : nat)
  | Consume
  | ConsumeStatus.

Inductive Outcome : Type :=
  | Next (w : World)
  | Panic
  | Disabled.

Definition lift (f : nat) (r : option (Fetcher * World)) : Outcome :=
  match r with
  | Some (ft, w) => Next (set_fetchers (<[f:=ft]> (fetchers w)) w)
  | None => Panic
  end.

Definition liftD (d : nat) (r : option (Decoder * World)) : Outcome :=
  match r with
  | Some (dc, w) => Next (set_decoders (<[d:=dc]> (decoders w)) w)
  | None => Panic
  end.

(** A [select] takes [default] only when no other case is ready: the
    decoder's cycle begins when the stop channel is open and no sender
    waits on [m.internalCH]; a decoder inside a cycle is at no
    [select], and can only finish the cycle. A timer that fires runs
    [m.Stop()] in a goroutine of its own. *)
Definition step (a : Action) (w : World) : Outcome :=
  match a with
  | CallStart => match Start w with Some w => Next w | None => Panic end
  | CallStop => Next (Stop w)
  | CallPause => Next (Pause w)
  | CallResume => Next (Resume w)
  | CallResetTimer duration => Next (ResetTimer duration w)
  | Fire i =>
      match timers w !! i with
      | Some t =>
          if armed t
          then Next (Stop (set_timers (<[i:=mkTimer (duration t) TimerFired]> (timers w)) w))
          else Disabled
      | None => Disabled
      end
  | FetcherRecv f k =>
      match fetchers w !! f with
      | Some (mkFetcher FSelect r) =>
          match takeSend k w with
          | Some (control, w) => lift f (fetchControl (mkFetcher FSelect r) control w)
          | None => Disabled
          end
      | _ => Disabled
      end
  | FetcherWake f =>
      match fetchers w !! f with
      | Some (mkFetcher FWait r) =>
          if wg (m w) =? 0 then lift f (fetchDeferred (mkFetcher FWait r) w) else Disabled
      | _ => Disabled
      end
  | DecoderRecv d k =>
      match decoders w !! d with
      | Some dc =>
          if exited dc || reading dc then Disabled
          else match takeSend k w with
               | Some (control, w) => Next (decodeControl control w)
               | None => Disabled
               end
      | None => Disabled
      end
  | DecoderStop d =>
      match decoders w !! d with
      | Some dc =>
          if exited dc || reading dc || negb (stopDecodeCh (m w)) then Disabled
          else liftD d (decodeStop dc w)
      | None => Disabled
      end
  | DecoderDefault d =>
      match decoders w !! d with
      | Some dc =>
          if exited dc || reading dc || stopDecodeCh (m w)
             || negb (length (internalCH w) =? 0)%nat
          then Disabled
          else liftD d (decodeDefault dc w)
      | None => Disabled
      end
  | DecoderBegin d =>
      match decoders w !! d with
      | Some dc =>
          if exited dc || reading dc || stopDecodeCh (m w)
             || negb (length (internalCH w) =? 0)%nat
          then Disabled
          else match statusCode (m w) with
               | StatusPaused => Next w
               | _ => Next (set_decoders (<[d:=set_reading true dc]> (decoders w)) w)
               end
      | None => Disabled
      end
  | DecoderFinish d =>
      match decoders w !! d with
      | Some dc =>
          if exited dc || negb (reading dc) then Disabled
          else liftD d (match decodePart dc w with
                        | Some (dc', w') => Some (set_reading false dc', w')
                        | None => None
                        end)
      | None => Disabled
      end
  | Consume =>
      match ImageStream (m w) with
      | Some ch =>
          match receive ch with
          | Some (_, ch') => Next (with_m (set_ImageStream (Some ch')) w)
          | None => Disabled
          end
      | None => Disabled
      end
  | ConsumeStatus =>
      match statusChannel (m w) with
      | _ :: rest =>
          Next (with_m (fun c => mkMjpeg (opts c) rest (statusCode c) (ImageStream c)
                                         (stopDecodeCh c) (wg c) (Mjpeg_EnableLog c) (timer c)) w)
      | [] => Disabled
      end
  end.

(** A schedule, one action after the other. *)
Fixpoint run (acts : list Action) (w : World) : Outcome :=
  match acts with
  | [] => Next w
  | a :: acts' =>
      match step a w with
      | Next w' => run acts' w'
      | o => o
      end
  end.

End Client.

(** ** A sample decoder, server and stream

    The decoder accepts a payload that begins with the JPEG start
    marker [FF D8] and yields the payload itself as the image; the
    server answers every request with a multipart stream of three
    parts, the second of which is no JPEG. *)

Module Sample.

Definition crlf : string := String "013" (String "010" EmptyString).

Definition soi : string := String "255" (String "216" EmptyString).

Definition decode (jpegData : string) : option string :=
  if String.prefix soi jpegData then Some jpegData else None.

Definition part (payload : string) : string :=
  "--frame" +:+ crlf +:+ "Content-Type: image/jpeg" +:+ crlf
  +:+ "Content-Length: 5" +:+ crlf +:+ crlf +:+ payload +:+ crlf.

Definition frameA : string := soi +:+ "AAA".
Definition frameB : string := soi +:+ "BBB".

Definition stream : string := part frameA +:+ part "12345" +:+ part frameB.

Definition get (url : string) : option (string * Go.Reader) :=
  Some ("multipart/x-mixed-replace; boundary=frame", Go.mkReader stream Go.EOF).

Definition options : MjpegOpts := mkOpts "http://camera/stream" 15 false 0 0 false.

(** The bound of the runtime on 64-bit Linux, [maxAlloc]. *)
Definition limit : N := 2 ^ 48.

Definition world : World (Image := string) := newWorld limit ∅ ∅ options.

(** A stream that ends inside the header block of its first part. *)
Definition truncated : string :=
  "--frame" +:+ crlf +:+ "Content-Type: image/jpeg" +:+ crlf +:+ "Content-Length: 5".

Definition getTruncated (url : string) : option (string * Go.Reader) :=
  Some ("multipart/x-mixed-replace; boundary=frame", Go.mkReader truncated Go.EOF).

(** The process a schedule leads to on the sample server (the process
    itself when the schedule panics or cannot run). *)
Definition after (get : string -> option (string * Go.Reader)) (acts : list Action)
    (w : World (Image := string)) : World (Image := string) :=
  match run decode get acts w with
  | Next w' => w'
  | _ => w
  end.

End Sample.


(** ** Vocabulary of the properties *)

(** The value an option field ends with: the parsed variable when it
    is set, not empty and parses, the caller's value otherwise. *)
Definition overridden {A : Type} (parse : string -> option A) (var : string) (given : A) : A :=
  if bool_decide (var = "") then given else default given (parse var).

(** One [if v := os.Getenv(...); v != ""] block of [loadEnvOverrides]. *)
Definition overrideWith {A : Type} (var : string) (parse : string -> option A)
    (set : A -> MjpegOpts -> MjpegOpts) (o : MjpegOpts) : MjpegOpts :=
  if negb (String.eqb var "")
  then match parse var with Some val => set val o | None => o end
  else o.


Fixpoint noNewline (s : string) : bool :=
  match s with
  | EmptyString => true
  | String c r => negb (Ascii.eqb c Go.nl) && noNewline r
  end.

(** What is left of a stream whose header block never reaches its
    blank line: header lines that are not blank, then bytes without a
    newline, then the end of the stream. *)
Inductive Unterminated : string -> Prop :=
  | Unterminated_end (tail : string) :
      noNewline tail = true -> Unterminated tail
  | Unterminated_line (headerLine rest : string) :
      noNewline headerLine = true ->
      Go.TrimSpace (headerLine +:+ String Go.nl EmptyString) <> EmptyString ->
      Unterminated rest ->
      Unterminated (headerLine +:+ String Go.nl rest).

Section Vocabulary.

Context {Image : Type}.
Variable jpegDecode : string -> option Image.
Variable httpGet : string -> option (string * Go.Reader).

(** [n] consecutive cycles of one decoder while nothing else runs. *)
Fixpoint cycles (n : nat) (d : Decoder) (w : World (Image := Image))
  : option (Decoder * World (Image := Image)) :=
  match n with
  | O => Some (d, w)
  | S n' =>
      match decodeDefault jpegDecode d w with
      | Some (d', w') => cycles n' d' w'
      | None => None
      end
  end.

(** The frames waiting in the image channel. *)
Definition pending (w : World (Image := Image)) : nat :=
  match ImageStream (m w) with
  | Some ch => length (buf ch)
  | None => O
  end.






(** The [decodeStream] goroutines that have not returned. *)
Definition live (ds : list Decoder) : nat :=
  length (filter (fun d => exited d = false) ds).

(** What a cycle of a decoder leaves alone. *)
Definition sameGoroutines (w w' : World (Image := Image)) : Prop :=
  decoders w' = decoders w /\ fetchers w' = fetchers w /\ internalCH w' = internalCH w
  /\ bodies w' = bodies w /\ replaced w' = replaced w /\ calls w' = calls w
  /\ returned w' = returned w /\ opts (m w') = opts (m w) /\ wg (m w') = wg (m w)
  /\ stopDecodeCh (m w') = stopDecodeCh (m w).

(** An image channel as [Start] makes it: capacity one, at most one
    frame waiting. *)
Definition holdsOne (ch : Chan Image) : Prop :=
  cap ch = 1%nat /\ (length (buf ch) <= 1)%nat.

(** What every schedule keeps true of the process: the image channels
    handed out hold at most one frame, the wait group counts the
    decoders that have not returned, and a [startFetching] goroutine
    holds a response body that exists. *)
Definition consistent (w : World (Image := Image)) : Prop :=
  (forall ch, ImageStream (m w) = Some ch -> holdsOne ch)
  /\ Forall holdsOne (replaced w)
  /\ wg (m w) = Z.of_nat (live (decoders w))
  /\ (forall f ft b, fetchers w !! f = Some ft -> res ft = Some b ->
        (b < length (bodies w))%nat).

End Vocabulary.

(** What a read leaves unread is a suffix of what was unread before:
    no byte is read twice. *)
Definition advances (rd rd' : Go.Reader) : Prop :=
  exists consumed, Go.unread rd = consumed +:+ Go.unread rd'.

(** The process without its status code and status channel. *)
Definition eraseStatus {Image : Type} (w : World (Image := Image)) : World (Image := Image) :=
  with_m (fun c => mkMjpeg (opts c) [] StatusStopped (ImageStream c) (stopDecodeCh c) (wg c)
                           (Mjpeg_EnableLog c) (timer c)) w.

(** ** The earlier draft of [decodeStream]

    The draft reads the header block in line, looks at the internal
    channel and at the status between the header block and the
    payload, reads a payload only for a positive length, and returns
    when the header block cannot be read. Its header loop and its
    decode-and-send are the code that became [readImageHeaders] and
    [processAndSendImage]. *)

Section Draft.

Context {Image : Type}.
Variable jpegDecode : string -> option Image.

(** The [default:] case of the outer [select] of the draft;
    [control] is what its inner [select] receives from
    [m.internalCH], [None] when no sender waits there and the inner
    [default:] runs. [None] as a result is a panic: the send on a
    closed channel, or [make([]byte, contentLength)] with a length
    beyond what can be allocated. *)
Definition draftCycle (control : option StreamControl) (d : Decoder)
    (w : World (Image := Image)) : option (Decoder * World (Image := Image)) :=
  let '(line, err, rd) := Go.ReadString (reader d) in
  let d := set_reader rd d in
  match err with
  | Some Go.EOF => Some (d, w)
  | Some _ => Some (d, with_m (setStatusCode StatusError) w)
  | None =>
      if Go.Contains line (boundary d) then
        let '(contentLength, err, rd) := readImageHeaders rd in
        let d := set_reader rd d in
        match err with
        | Some _ => decodeStop d (with_m (setStatusCode StatusError) w)
        | None =>
            match control with
            | Some PauseStream => Some (d, with_m (setStatusCode StatusPaused) w)
            | Some ResumeStream => Some (d, with_m (setStatusCode StatusPlaying) w)
            | Some _ => Some (d, w)
            | None =>
                if decide (statusCode (m w) = StatusPaused) then Some (d, w)
                else if 0 <? contentLength then
                  if Z.of_N (maxAlloc w) <? contentLength then None
                  else
                    let '(jpegData, err, rd) := Go.ReadFull rd (Z.to_nat contentLength) in
                    let d := set_reader rd d in
                    match err with
                    | Some _ => Some (d, with_m (setStatusCode StatusError) w)
                    | None =>
                        match processAndSendImage jpegDecode jpegData (timerStarted d) w with
                        | Some (w, started) =>
                            Some (mkDecoder (reader d) (boundary d) started (exited d)
                                            (reading d), w)
                        | None => None
                        end
                    end
                else Some (d, w)
            end
        end
      else Some (d, w)
  end.

End Draft.

(** ** Further vocabulary *)

(** Lines put together, each with its newline. *)
Fixpoint joinLines (ls : list string) : string :=
  match ls with
  | [] => EmptyString
  | l :: ls' => l +:+ String Go.nl (joinLines ls')
  end.

(** A line of a header block that is not the blank line. *)
Definition headerLine (l : string) : Prop :=
  noNewline l = true /\ Go.TrimSpace (l +:+ String Go.nl EmptyString) <> EmptyString.

(** The line that ends a header block. *)
Definition blankLine (l : string) : Prop :=
  noNewline l = true /\ Go.TrimSpace (l +:+ String Go.nl EmptyString) = EmptyString.

(** What a header line makes of the content length read so far. *)
Definition lengthFrom (l : string) (contentLength : Z) : Z :=
  if Go.HasPrefix (l +:+ String Go.nl EmptyString) "Content-Length:"
  then default contentLength (Go.Sscanf_d (l +:+ String Go.nl EmptyString) "Content-Length:")
  else contentLength.

(** The content length a run of header lines leaves: that of the last
    line that scans. *)
Definition lengthAfter (ls : list string) (contentLength : Z) : Z :=
  foldl (fun n l => lengthFrom l n) contentLength ls.

(** Whether a string begins with a decimal digit. *)
Definition beginsWithDigit (s : string) : bool :=
  match s with
  | String c _ => Go.isDigit c
  | EmptyString => false
  end.

(** The image channel has been closed. *)
Definition streamClosed {Image : Type} (w : World (Image := Image)) : Prop :=
  exists ch, ImageStream (m w) = Some ch /\ closed ch = true.

(** A decoder in front of a part: its boundary line, a header block
    with its blank line, then [rest]. *)
Definition atPart (d : Decoder) (line : string) (hdrs : list string) (blank rest : string)
  : Prop :=
  Go.unread (reader d)
  = line +:+ String Go.nl (joinLines hdrs +:+ blank +:+ String Go.nl rest)
  /\ noNewline line = true
  /\ Go.Contains (line +:+ String Go.nl EmptyString) (boundary d) = true
  /\ Forall headerLine hdrs
  /\ blankLine blank.

(** The sample process while it plays, and a fresh decoder of the
    sample boundary in front of a given stream. *)
Definition samplePlaying : World (Image := string) :=
  with_m (setStatusCode StatusPlaying) Sample.world.

Definition sampleDecoder (stream : string) : Decoder :=
  mkDecoder (Go.mkReader stream Go.EOF) "--frame" false false false.

Definition cr : string := String "013" EmptyString.

(** * Properties *)

(** ** Configuration *)

Section Configuration.

Context {Image : Type}.

Lemma overrideWith_other {A B : Type} (proj : MjpegOpts -> B) (var : string)
    (parse : string -> option A) (set : A -> MjpegOpts -> MjpegOpts) (o : MjpegOpts) :
  (forall v o, proj (set v o) = proj o) ->
  proj (overrideWith var parse set o) = proj o.
Proof.
  intros Hset. unfold overrideWith.
  destruct (negb _); [destruct (parse var)|]; auto.
Qed.

Lemma overrideWith_same {A : Type} (proj : MjpegOpts -> A) (var : string)
    (parse : string -> option A) (set : A -> MjpegOpts -> MjpegOpts) (o : MjpegOpts) :
  (forall v o, proj (set v o) = v) ->
  proj (overrideWith var parse set o) = overridden parse var (proj o).
Proof.
  intros Hset. unfold overrideWith, overridden.
  destruct (String.eqb_spec var "") as [E|E]; simpl.
  - by rewrite bool_decide_eq_true_2.
  - rewrite bool_decide_eq_false_2 by done. destruct (parse var); simpl; auto.
Qed.

Lemma loadEnvOverrides_blocks (env : gmap string string) (o : MjpegOpts) :
  loadEnvOverrides env o =
  overrideWith (Getenv env "MJPEG_ENABLE_LOG") Go.ParseBool
    (fun v o => mkOpts (URL o) (AutoStopTimer o) (Resize o) (Width o) (Height o) v)
  (overrideWith (Getenv env "MJPEG_HEIGHT") Go.Atoi
    (fun v o => mkOpts (URL o) (AutoStopTimer o) (Resize o) (Width o) v (EnableLog o))
  (overrideWith (Getenv env "MJPEG_WIDTH") Go.Atoi
    (fun v o => mkOpts (URL o) (AutoStopTimer o) (Resize o) v (Height o) (EnableLog o))
  (overrideWith (Getenv env "MJPEG_RESIZE") Go.ParseBool
    (fun v o => mkOpts (URL o) (AutoStopTimer o) v (Width o) (Height o) (EnableLog o))
  (overrideWith (Getenv env "MJPEG_AUTOSTOP_TIMER") Go.Atoi
    (fun v o => mkOpts (URL o) v (Resize o) (Width o) (Height o) (EnableLog o))
  (overrideWith (Getenv env "MJPEG_URL") Some
    (fun v o => mkOpts v (AutoStopTimer o) (Resize o) (Width o) (Height o) (EnableLog o))
    o))))).
Proof. reflexivity. Qed.

(** C10. Every option field whose environment variable (as the process
    sees it after the [.env] file is loaded) is set to a non-empty
    value that parses at the field's type is replaced by that value;
    every field whose variable is unset, empty or unparsable keeps the
    value the caller passed to [NewMjpeg]. *)
Theorem NewMjpeg_env_overrides (dotenv env : gmap string string) (o : MjpegOpts) :
  let getenv := Getenv (godotenvLoad dotenv env) in
  let o' := opts (NewMjpeg (Image := Image) dotenv env o) in
  URL o' = overridden Some (getenv "MJPEG_URL") (URL o)
  /\ AutoStopTimer o' = overridden Go.Atoi (getenv "MJPEG_AUTOSTOP_TIMER") (AutoStopTimer o)
  /\ Resize o' = overridden Go.ParseBool (getenv "MJPEG_RESIZE") (Resize o)
  /\ Width o' = overridden Go.Atoi (getenv "MJPEG_WIDTH") (Width o)
  /\ Height o' = overridden Go.Atoi (getenv "MJPEG_HEIGHT") (Height o)
  /\ EnableLog o' = overridden Go.ParseBool (getenv "MJPEG_ENABLE_LOG") (EnableLog o).
Proof.
  intros getenv o'. subst o' getenv.
  unfold NewMjpeg, setStatusCode. cbn [opts].
  rewrite loadEnvOverrides_blocks.
  repeat split;
    repeat first
      [ rewrite overrideWith_same by reflexivity
      | rewrite overrideWith_other by reflexivity ];
    reflexivity.
Qed.
End Configuration.

(** ** The boundary token *)





(** ** The watchdog timer *)

Section Watchdog.

Context {Image : Type}.
Implicit Types w : World (Image := Image).



Lemma ResetTimer_timers (newDuration : Z) w :
  timers (ResetTimer newDuration w)
  = match timer (m w) with
    | Some i => alter stopTimer i (timers w)
    | None => timers w
    end
    ++ [mkTimer (Go.Seconds (if 0 <? newDuration then newDuration
                             else AutoStopTimer (opts (m w)))) TimerArmed].
Proof.
  unfold ResetTimer, afterFunc.
  destruct (timer (m w)), (0 <? newDuration); reflexivity.
Qed.



End Watchdog.



(** ** Reading lines, headers and payloads *)

Lemma length_append (s t : string) :
  String.length (s +:+ t) = (String.length s + String.length t)%nat.
Proof. induction s; simpl; congruence. Qed.

Lemma cutLine_line (l rest : string) :
  noNewline l = true ->
  Go.cutLine (l +:+ String Go.nl rest) = Some (l +:+ String Go.nl EmptyString, rest).
Proof.
  induction l as [|c l IH]; simpl; intros H.
  - reflexivity.
  - apply andb_prop in H as [Hc Hl]. apply negb_true_iff in Hc.
    rewrite Hc, IH by done. reflexivity.
Qed.

Lemma cutLine_none (s : string) : noNewline s = true -> Go.cutLine s = None.
Proof.
  induction s as [|c s IH]; simpl; intros H; [done|].
  apply andb_prop in H as [Hc Hs]. apply negb_true_iff in Hc.
  by rewrite Hc, IH.
Qed.

Lemma cutLine_split (s l r : string) :
  Go.cutLine s = Some (l, r) ->
  s = l +:+ r /\ (String.length r < String.length s)%nat.
Proof.
  revert l r. induction s as [|c s IH]; simpl; intros l r H; [done|].
  destruct (Ascii.eqb c Go.nl).
  - simplify_eq. simpl. split; [done|lia].
  - destruct (Go.cutLine s) as [[l' r']|]; simplify_eq.
    destruct (IH l' r eq_refl) as [-> Hlen]. simpl. split; [done|lia].
Qed.

Lemma take_drop (n : nat) (s : string) : s = Go.take n s +:+ Go.drop n s.
Proof.
  revert s. induction n as [|n IH]; intros [|c s]; simpl; try done.
  by rewrite <- IH.
Qed.

Lemma advances_refl (rd : Go.Reader) : advances rd rd.
Proof. by exists EmptyString. Qed.

Lemma append_assoc (a b c : string) : (a +:+ b) +:+ c = a +:+ (b +:+ c).
Proof. induction a; simpl; congruence. Qed.

Lemma append_empty_r (s : string) : s +:+ EmptyString = s.
Proof. induction s; simpl; congruence. Qed.

Lemma advances_trans (a b c : Go.Reader) : advances a b -> advances b c -> advances a c.
Proof.
  intros [x Hx] [y Hy]. exists (x +:+ y). by rewrite Hx, Hy, append_assoc.
Qed.

Lemma ReadString_advances (rd rd' : Go.Reader) (line : string) (err : option Go.error) :
  Go.ReadString rd = (line, err, rd') -> advances rd rd'.
Proof.
  unfold Go.ReadString. destruct (Go.cutLine (Go.unread rd)) as [[l r]|] eqn:Hcut;
    intros [= <- <- <-]; simpl.
  - exists l. by apply cutLine_split.
  - exists (Go.unread rd). simpl. by rewrite append_empty_r.
Qed.

Lemma ReadFull_advances (rd rd' : Go.Reader) (n : nat) (data : string) (err : option Go.error) :
  Go.ReadFull rd n = (data, err, rd') -> advances rd rd'.
Proof.
  unfold Go.ReadFull. destruct (n <=? _)%nat; intros [= <- <- <-].
  - exists (Go.take n (Go.unread rd)). apply take_drop.
  - exists (Go.unread rd). simpl. by rewrite append_empty_r.
Qed.

Lemma readImageHeadersLoop_advances (fuel : nat) (rd rd' : Go.Reader) (cl n : Z)
    (err : option Go.error) :
  readImageHeadersLoop fuel rd cl = (n, err, rd') -> advances rd rd'.
Proof.
  revert rd cl. induction fuel as [|fuel IH]; simpl; intros rd cl H.
  - simplify_eq. apply advances_refl.
  - destruct (Go.ReadString rd) as [[line e] rd1] eqn:Hread.
    apply ReadString_advances in Hread.
    destruct e; [by simplify_eq|].
    destruct (String.eqb _ _); [by simplify_eq|].
    eapply advances_trans; [done|]. by eapply IH.
Qed.

Lemma readImageHeaders_advances (rd rd' : Go.Reader) (n : Z) (err : option Go.error) :
  readImageHeaders rd = (n, err, rd') -> advances rd rd'.
Proof. apply readImageHeadersLoop_advances. Qed.

(** A header block without its blank line is an error, whatever the
    lines say, and uses the stream up. *)
Lemma readImageHeadersLoop_unterminated (s : string) :
  Unterminated s ->
  forall (fuel : nat) (e : Go.error) (cl : Z),
    (String.length s < fuel)%nat ->
    readImageHeadersLoop fuel (Go.mkReader s e) cl
    = (0, Some (Go.ErrOther "error reading header"), Go.mkReader EmptyString e).
Proof.
  induction 1 as [tail Htail|l rest Hl Hblank _ IH]; intros fuel e cl Hfuel.
  - destruct fuel as [|fuel]; [lia|]. simpl.
    unfold Go.ReadString. simpl. by rewrite cutLine_none.
  - destruct fuel as [|fuel]; [lia|]. simpl.
    unfold Go.ReadString. simpl. rewrite cutLine_line by done.
    destruct (String.eqb_spec (Go.TrimSpace (l +:+ String Go.nl EmptyString)) "") as [E|_];
      [done|].
    apply IH. rewrite length_append in Hfuel. simpl in Hfuel. lia.
Qed.

Lemma readImageHeaders_unterminated (s : string) (e : Go.error) :
  Unterminated s ->
  readImageHeaders (Go.mkReader s e)
  = (0, Some (Go.ErrOther "error reading header"), Go.mkReader EmptyString e).
Proof.
  intros H. apply readImageHeadersLoop_unterminated; [done|]. simpl. lia.
Qed.


(** ** The decoder's cycle *)

Section Decoding.

Context {Image : Type}.
Variable jpegDecode : string -> option Image.
Variable httpGet : string -> option (string * Go.Reader).
Implicit Types w : World (Image := Image).
Implicit Types d : Decoder.

Lemma eraseStatus_setStatusCode (s : StatusCode) w :
  eraseStatus (with_m (setStatusCode s) w) = eraseStatus w.
Proof. reflexivity. Qed.


(** The effect of [processAndSendImage]: nothing at all, or a frame
    appended to the channel, with the timer armed if this call is the
    first to deliver and the configured duration is positive. *)
Lemma processAndSendImage_effect (jpegData : string) (started : bool) w w' (started' : bool) :
  processAndSendImage jpegDecode jpegData started w = Some (w', started') ->
  (w' = w /\ started' = started)
  \/ exists img ch,
       jpegDecode jpegData = Some img
       /\ ImageStream (m w) = Some ch
       /\ closed ch = false
       /\ (length (buf ch) < cap ch)%nat
       /\ let w1 := with_m (set_ImageStream (Some (mkChan (cap ch) (buf ch ++ [img]) false))) w in
          if negb started && (0 <? AutoStopTimer (opts (m w)))
          then w' = afterFunc (Go.Seconds (AutoStopTimer (opts (m w)))) w1 /\ started' = true
          else w' = w1 /\ started' = started.
Proof.
  unfold processAndSendImage.
  destruct (Go.len jpegData =? 0); [intros [= <- <-]; by left|].
  destruct (jpegDecode jpegData) as [img|]; [|intros [= <- <-]; by left].
  destruct (ImageStream (m w)) as [ch|] eqn:Hch; [|intros [= <- <-]; by left].
  unfold trySend.
  destruct (closed ch) eqn:Hclosed; [done|].
  destruct (length (buf ch) <? cap ch)%nat eqn:Hroom; [|intros [= <- <-]; by left].
  apply Nat.ltb_lt in Hroom. simpl.
  intros H. right. exists img, ch. repeat split; try done.
  destruct (negb started && (0 <? AutoStopTimer (opts (m w)))); by simplify_eq.
Qed.


(** A frame that finds the channel full is dropped: nothing changes. *)
Lemma processAndSendImage_full (jpegData : string) (started : bool) w (ch : Chan Image) :
  ImageStream (m w) = Some ch ->
  closed ch = false ->
  (cap ch <= length (buf ch))%nat ->
  processAndSendImage jpegDecode jpegData started w = Some (w, started).
Proof.
  intros Hch Hopen Hfull. unfold processAndSendImage, trySend.
  rewrite Hch, Hopen. apply Nat.ltb_ge in Hfull. rewrite Hfull.
  destruct (Go.len jpegData =? 0); [done|]. by destruct (jpegDecode jpegData).
Qed.

(** One cycle with respect to the reader, the flags of the goroutine
    and the parts of the process it can touch. *)
Lemma decodePart_frame d w d' w' :
  decodePart jpegDecode d w = Some (d', w') ->
  advances (reader d) (reader d')
  /\ boundary d' = boundary d
  /\ exited d' = exited d
  /\ ((timerStarted d' = timerStarted d
       /\ (w' = w \/ w' = with_m (setStatusCode StatusError) w))
      \/ exists jpegData,
           processAndSendImage jpegDecode jpegData (timerStarted d) w
           = Some (w', timerStarted d')).
Proof.
  unfold decodePart.
  destruct (Go.ReadString (reader d)) as [[line e] rd1] eqn:Hline.
  apply ReadString_advances in Hline.
  destruct e as [[]|].
  { intros [= <- <-]. simpl. auto 10. }
  { intros [= <- <-]. simpl. auto 10. }
  simpl. destruct (Go.Contains line (boundary d)); [|intros [= <- <-]; simpl; auto 10].
  destruct (readImageHeaders rd1) as [[n e] rd2] eqn:Hhdr.
  apply readImageHeaders_advances in Hhdr.
  assert (advances (reader d) rd2) by (by eapply advances_trans).
  destruct e; [intros [= <- <-]; simpl; auto 10|].
  destruct ((n <? 0) || _); [done|].
  destruct (Go.ReadFull rd2 (Z.to_nat n)) as [[jpegData e] rd3] eqn:Hfull.
  apply ReadFull_advances in Hfull.
  assert (advances (reader d) rd3) by (by eapply advances_trans).
  destruct e; [intros [= <- <-]; simpl; auto 10|]. simpl.
  destruct (processAndSendImage _ _ _ _) as [[w1 started]|] eqn:Hsend; [|done].
  intros [= <- <-]. simpl. repeat split; try done. right. by exists jpegData.
Qed.





End Decoding.




(** ** The first delivered frame and the watchdog *)

Section FirstFrame.

Context {Image : Type}.
Variable jpegDecode : string -> option Image.
Variable httpGet : string -> option (string * Go.Reader).
Implicit Types w : World (Image := Image).
Implicit Types d : Decoder.

Lemma sameGoroutines_refl w : sameGoroutines w w.
Proof. by repeat split. Qed.

(** A cycle either arms the watchdog, and then it is the first cycle
    of this decoder that delivers a frame and the configured duration
    is positive, or it leaves the timers alone. *)
Lemma decodePart_timer d w d' w' :
  decodePart jpegDecode d w = Some (d', w') ->
  sameGoroutines w w'
  /\ ((timers w' = timers w /\ timer (m w') = timer (m w)
       /\ timerStarted d' = timerStarted d
       /\ (pending w' = pending w
           \/ (pending w' = S (pending w)
               /\ (timerStarted d = true \/ AutoStopTimer (opts (m w)) <= 0))))
      \/ (pending w' = S (pending w)
          /\ timerStarted d = false
          /\ 0 < AutoStopTimer (opts (m w))
          /\ timerStarted d' = true
          /\ timers w' = timers w
                         ++ [mkTimer (Go.Seconds (AutoStopTimer (opts (m w)))) TimerArmed]
          /\ timer (m w') = Some (length (timers w)))).
Proof.
  intros Hpart.
  apply decodePart_frame in Hpart as (_ & _ & _ & [[Hts [->| ->]]|[jpegData Hsend]]).
  - split; [apply sameGoroutines_refl|]. left. auto.
  - split; [by repeat split|]. left. auto.
  - apply processAndSendImage_effect in Hsend
      as [[-> Hts]|(img & ch & _ & Hch & _ & Hroom & Heff)].
    + split; [apply sameGoroutines_refl|]. left. auto.
    + cbv zeta in Heff. unfold pending. rewrite Hch.
      destruct (timerStarted d) eqn:Hstarted; simpl in Heff.
      * destruct Heff as [-> ->]. split; [by repeat split|]. left. simpl.
        rewrite length_app. simpl. repeat split; try done. right. split; [lia|auto].
      * destruct (Z.ltb_spec 0 (AutoStopTimer (opts (m w)))) as [Hpos|Hnonpos].
        -- destruct Heff as [-> ->]. split; [by repeat split|]. right. simpl.
           rewrite length_app. simpl. repeat split; try done. lia.
        -- destruct Heff as [-> ->]. split; [by repeat split|]. left. simpl.
           rewrite length_app. simpl. repeat split; try done. right. split; [lia|auto].
Qed.

Lemma decodeDefault_part d w d' w' :
  decodeDefault jpegDecode d w = Some (d', w') ->
  decodePart jpegDecode d w = Some (d', w') \/ (d' = d /\ w' = w).
Proof.
  unfold decodeDefault. destruct (statusCode (m w)); auto. intros [= <- <-]. auto.
Qed.

Lemma decodeDefault_timer d w d' w' :
  decodeDefault jpegDecode d w = Some (d', w') ->
  sameGoroutines w w'
  /\ ((timers w' = timers w /\ timer (m w') = timer (m w)
       /\ timerStarted d' = timerStarted d
       /\ (pending w' = pending w
           \/ (pending w' = S (pending w)
               /\ (timerStarted d = true \/ AutoStopTimer (opts (m w)) <= 0))))
      \/ (pending w' = S (pending w)
          /\ timerStarted d = false
          /\ 0 < AutoStopTimer (opts (m w))
          /\ timerStarted d' = true
          /\ timers w' = timers w
                         ++ [mkTimer (Go.Seconds (AutoStopTimer (opts (m w)))) TimerArmed]
          /\ timer (m w') = Some (length (timers w)))).
Proof.
  intros H. apply decodeDefault_part in H as [Hpart|[-> ->]].
  - by apply decodePart_timer.
  - split; [apply sameGoroutines_refl|]. left. auto.
Qed.

End FirstFrame.

(** ** What every schedule keeps true *)

Section Schedules.

Context {Image : Type}.
Variable jpegDecode : string -> option Image.
Variable httpGet : string -> option (string * Go.Reader).
Implicit Types w : World (Image := Image).
Implicit Types d : Decoder.

Lemma run_invariant (P : World (Image := Image) -> Prop) :
  (forall a w w', P w -> step jpegDecode httpGet a w = Next w' -> P w') ->
  forall acts w w', P w -> run jpegDecode httpGet acts w = Next w' -> P w'.
Proof.
  intros Hstep. induction acts as [|a acts IH]; simpl; intros w w' Hw Hrun.
  - by simplify_eq.
  - destruct (step jpegDecode httpGet a w) as [w1| |] eqn:Ha; try done. eauto.
Qed.


Lemma live_app (ds1 ds2 : list Decoder) : live (ds1 ++ ds2) = (live ds1 + live ds2)%nat.
Proof. unfold live. by rewrite filter_app, length_app. Qed.

Lemma live_cons d (ds : list Decoder) :
  live (d :: ds) = ((if exited d then 0 else 1) + live ds)%nat.
Proof.
  unfold live. rewrite filter_cons. destruct (exited d) eqn:E.
  - rewrite decide_False by done. done.
  - rewrite decide_True by done. done.
Qed.

Lemma live_insert (i : nat) d d' (ds : list Decoder) :
  ds !! i = Some d ->
  (live (<[i:=d']> ds) + (if exited d then 0 else 1)
   = live ds + (if exited d' then 0 else 1))%nat.
Proof.
  intros Hi.
  rewrite <- (take_drop_middle ds i d Hi) at 2.
  rewrite insert_take_drop by (by eapply lookup_lt_Some).
  rewrite !live_app, !live_cons. lia.
Qed.

(** The channel after a cycle: as before, or one frame more where there
    was room. *)
Lemma decodePart_channel d w d' w' :
  decodePart jpegDecode d w = Some (d', w') ->
  exited d' = exited d
  /\ (ImageStream (m w') = ImageStream (m w)
      \/ exists ch img,
           ImageStream (m w) = Some ch /\ closed ch = false
           /\ (length (buf ch) < cap ch)%nat
           /\ ImageStream (m w') = Some (mkChan (cap ch) (buf ch ++ [img]) false)).
Proof.
  intros Hpart.
  apply decodePart_frame in Hpart as (_ & _ & Hex & [[Hts [->| ->]]|[jpegData Hsend]]);
    [auto..|].
  split; [done|].
  apply processAndSendImage_effect in Hsend
    as [[-> Hts]|(img & ch & _ & Hch & Hopen & Hroom & Heff)]; [auto|].
  right. exists ch, img. repeat split; try done.
  cbv zeta in Heff.
  destruct (negb (timerStarted d) && (0 <? AutoStopTimer (opts (m w))));
    by destruct Heff as [-> _].
Qed.

Lemma decodeDefault_channel d w d' w' :
  decodeDefault jpegDecode d w = Some (d', w') ->
  exited d' = exited d
  /\ (ImageStream (m w') = ImageStream (m w)
      \/ exists ch img,
           ImageStream (m w) = Some ch /\ closed ch = false
           /\ (length (buf ch) < cap ch)%nat
           /\ ImageStream (m w') = Some (mkChan (cap ch) (buf ch ++ [img]) false)).
Proof.
  intros H. apply (decodeDefault_part jpegDecode) in H as [Hpart|[-> ->]]; [|auto].
  by apply decodePart_channel.
Qed.

(** A cycle keeps the process consistent, whichever decoder of the
    table its goroutine is. *)
Lemma cycle_consistent (i : nat) dc d1 w w1 :
  consistent w ->
  decoders w !! i = Some dc ->
  exited d1 = exited dc ->
  sameGoroutines w w1 ->
  (ImageStream (m w1) = ImageStream (m w)
   \/ exists ch img,
        ImageStream (m w) = Some ch /\ closed ch = false
        /\ (length (buf ch) < cap ch)%nat
        /\ ImageStream (m w1) = Some (mkChan (cap ch) (buf ch ++ [img]) false)) ->
  consistent (set_decoders (<[i:=d1]> (decoders w1)) w1).
Proof.
  intros Hc Hd Hex (Hds & Hfs & _ & Hbs & Hrep & _ & _ & _ & Hwg & _) Hch.
  destruct Hc as (H1 & H2 & H3 & H4).
  unfold consistent; refine (conj _ (conj _ (conj _ _))); simpl.
  - intros c Hc. destruct Hch as [Hch|(ch & img & Hch & _ & Hroom & Hch')].
    + rewrite Hch in Hc. eauto.
    + rewrite Hch' in Hc. simplify_eq. destruct (H1 ch Hch) as [Hcap Hlen].
      split; simpl; [done|]. rewrite length_app. simpl. lia.
  - by rewrite Hrep.
  - rewrite Hwg, H3, Hds.
    pose proof (live_insert i dc d1 (decoders w) Hd) as Hlive.
    rewrite Hex in Hlive. lia.
  - rewrite Hfs, Hbs. done.
Qed.

Lemma holdsOne_make : holdsOne (make (A := Image) 1).
Proof. split; simpl; lia. Qed.

Lemma holdsOne_close (ch ch' : Chan Image) : holdsOne ch -> close ch = Some ch' -> holdsOne ch'.
Proof. unfold close. intros H. destruct (closed ch); intros [= <-]. done. Qed.

Lemma fetchDeferred_effect (f f' : Fetcher) w w' :
  fetchDeferred f w = Some (f', w') ->
  f' = mkFetcher FDone (res f)
  /\ decoders w' = decoders w /\ fetchers w' = fetchers w /\ replaced w' = replaced w
  /\ wg (m w') = wg (m w)
  /\ bodies w' = match res f with Some b => <[b:=true]> (bodies w) | None => bodies w end
  /\ statusCode (m w') = StatusStopped
  /\ exists ch ch', ImageStream (m w) = Some ch /\ close ch = Some ch'
                    /\ ImageStream (m w') = Some ch'.
Proof.
  unfold fetchDeferred. intros H.
  destruct (res f) as [b|] eqn:Hres; simpl in H.
  - destruct (ImageStream (m w)) as [ch|] eqn:Hch; [|done].
    destruct (close ch) as [ch'|] eqn:Hclose; [|done]. simplify_eq. simpl.
    repeat split; try done. by exists ch, ch'.
  - destruct (ImageStream (m w)) as [ch|] eqn:Hch; [|done].
    destruct (close ch) as [ch'|] eqn:Hclose; [|done]. simplify_eq. simpl.
    repeat split; try done. by exists ch, ch'.
Qed.

Ltac split_consistent := unfold consistent; refine (conj _ (conj _ (conj _ _))).

Lemma consistent_frame w w' :
  consistent w ->
  ImageStream (m w') = ImageStream (m w) -> replaced w' = replaced w ->
  wg (m w') = wg (m w) -> decoders w' = decoders w ->
  fetchers w' = fetchers w -> bodies w' = bodies w ->
  consistent w'.
Proof.
  unfold consistent. intros (H1 & H2 & H3 & H4) -> -> -> -> -> ->. done.
Qed.

Lemma consistent_newWorld (limit : N) (dotenv env : gmap string string) (o : MjpegOpts) :
  consistent (newWorld (Image := Image) limit dotenv env o).
Proof.
  unfold consistent, newWorld, NewMjpeg. simpl. repeat split; done.
Qed.

Lemma consistent_fetcher_insert w (f : nat) (ft : Fetcher) :
  consistent w ->
  (forall b, res ft = Some b -> (b < length (bodies w))%nat) ->
  consistent (set_fetchers (<[f:=ft]> (fetchers w)) w).
Proof.
  intros (H1 & H2 & H3 & H4) Hft. split_consistent; try done. simpl.
  intros g gt b Hg Hres.
  destruct (decide (f = g)) as [->|Hne].
  - destruct (decide (g < length (fetchers w))%nat).
    + rewrite list_lookup_insert_eq in Hg by done. simplify_eq. auto.
    + rewrite list_insert_ge in Hg by lia. eauto.
  - rewrite list_lookup_insert_ne in Hg by done. eauto.
Qed.

Lemma fetchControl_consistent (f f' : Fetcher) (control : StreamControl) w w' :
  consistent w ->
  (forall b, res f = Some b -> (b < length (bodies w))%nat) ->
  fetchControl httpGet f control w = Some (f', w') ->
  consistent w' /\ fetchers w' = fetchers w
  /\ (forall b, res f' = Some b -> (b < length (bodies w'))%nat).
Proof.
  intros Hc Hf. destruct control; simpl.
  - destruct (decide (statusCode (m w) = StatusPlaying)); [intros [= <- <-]; auto|].
    destruct (httpGet _) as [[contentType body]|].
    + unfold parseContentTypeAndBoundary. cbv zeta. intros [= <- <-]. simpl.
      destruct Hc as (H1 & H2 & H3 & H4).
      split; [|split; [done|]].
      * split_consistent; try done; simpl.
        -- rewrite live_app, H3. unfold live. simpl. lia.
        -- intros g gt b Hg Hres. rewrite length_app. specialize (H4 g gt b Hg Hres). lia.
      * intros b [= <-]. rewrite length_app. simpl. lia.
    + intros H. apply fetchDeferred_effect in H
        as (-> & Hds & Hfs & Hrep & Hwg & Hbs & _ & ch & ch' & Hch & Hclose & Hch').
      simpl in *. destruct Hc as (H1 & H2 & H3 & H4).
      split; [|split; [done|done]].
      split_consistent.
      * intros c Hc'. rewrite Hch' in Hc'. simplify_eq. eapply holdsOne_close; [|done]. eauto.
      * by rewrite Hrep.
      * by rewrite Hwg, Hds.
      * rewrite Hfs, Hbs. done.
  - destruct (stopDecodeCh (m w)); [done|]. intros [= <- <-]. auto.
  - intros [= <- <-]. auto.
  - intros [= <- <-]. auto.
Qed.

(** Every step keeps the process consistent. *)
Lemma step_consistent (a : Action) w w' :
  consistent w -> step jpegDecode httpGet a w = Next w' -> consistent w'.
Proof.
  intros Hc. destruct a; simpl.
  - (* CallStart *)
    unfold Start. destruct Hc as (H1 & H2 & H3 & H4).
    destruct (ImageStream (m w)) as [ch|] eqn:Hch.
    + destruct (close ch) as [ch'|] eqn:Hclose; [|done]. intros [= <-].
      split_consistent; simpl; try done.
      * intros c [= <-]. apply holdsOne_make.
      * apply Forall_app. split; [done|]. constructor; [|done].
        eapply holdsOne_close; eauto.
      * intros f ft b Hf Hres. apply lookup_app_Some in Hf as [Hf|[_ Hf]]; [eauto|].
        apply list_lookup_singleton_Some in Hf as [_ <-]. done.
    + intros [= <-]. split_consistent; simpl; try done.
      * intros c [= <-]. apply holdsOne_make.
      * intros f ft b Hf Hres. apply lookup_app_Some in Hf as [Hf|[_ Hf]]; [eauto|].
        apply list_lookup_singleton_Some in Hf as [_ <-]. done.
  - intros [= <-]. by eapply consistent_frame.
  - intros [= <-]. by eapply consistent_frame.
  - intros [= <-]. by eapply consistent_frame.
  - (* CallResetTimer *)
    intros [= <-]. eapply consistent_frame; [done|..];
      unfold ResetTimer, afterFunc;
      match goal with |- context [0 <? ?x] => by destruct (timer (m w)), (0 <? x) end.
  - (* Fire *)
    destruct (timers w !! i) as [t|]; [|done]. destruct (armed t); [|done].
    intros [= <-]. by eapply consistent_frame.
  - (* FetcherRecv *)
    destruct (fetchers w !! f) as [[[] r]|] eqn:Hf; try done.
    unfold takeSend. destruct (internalCH w !! k) as [[id control]|]; [|done].
    set (w0 := set_returned _ _).
    assert (consistent w0) as Hc0 by (by eapply consistent_frame).
    destruct (fetchControl httpGet _ control w0) as [[f' w1]|] eqn:Hctl; [|done].
    simpl. intros [= <-].
    apply fetchControl_consistent in Hctl as (Hc1 & Hfs & Hres); [|done|].
    + by apply consistent_fetcher_insert.
    + intros b Hb. destruct Hc as (_ & _ & _ & H4). by eapply (H4 f).
  - (* FetcherWake *)
    destruct (fetchers w !! f) as [[[] r]|] eqn:Hf; try done.
    destruct (wg (m w) =? 0); [|done].
    destruct (fetchDeferred _ w) as [[f' w1]|] eqn:Hdef; [|done].
    simpl. intros [= <-].
    apply fetchDeferred_effect in Hdef
      as (-> & Hds & Hfs & Hrep & Hwg & Hbs & _ & ch & ch' & Hch & Hclose & Hch').
    simpl in *. destruct Hc as (H1 & H2 & H3 & H4).
    assert (length (bodies w1) = length (bodies w)) as Hlen.
    { rewrite Hbs. destruct r; by rewrite ?length_insert. }
    apply consistent_fetcher_insert.
    + split_consistent.
      * intros c Hc'. rewrite Hch' in Hc'. simplify_eq. eapply holdsOne_close; [|done]. eauto.
      * by rewrite Hrep.
      * by rewrite Hwg, Hds.
      * rewrite Hfs, Hlen. done.
    + simpl. intros b ->. rewrite Hlen. by eapply (H4 f).
  - (* DecoderRecv *)
    destruct (decoders w !! d) as [dc|]; [|done]. destruct (exited dc || reading dc); [done|].
    unfold takeSend. destruct (internalCH w !! k) as [[id control]|]; [|done].
    intros [= <-]. eapply consistent_frame; [done|..]; by destruct control.
  - (* DecoderStop *)
    destruct (decoders w !! d) as [dc|] eqn:Hd; [|done].
    destruct (exited dc) eqn:Hex; [done|]. simpl.
    destruct (reading dc) eqn:Hrd; [done|]. simpl.
    destruct (stopDecodeCh (m w)); [|done]. simpl.
    unfold decodeStop. destruct (Z.ltb_spec (wg (m w)) 1); [done|].
    simpl. intros [= <-].
    destruct Hc as (H1 & H2 & H3 & H4). split_consistent; try done. simpl.
    pose proof (live_insert d dc
                  (mkDecoder (reader dc) (boundary dc) (timerStarted dc) true (reading dc))
                  (decoders w) Hd) as Hlive.
    rewrite Hex in Hlive. simpl in Hlive. lia.
  - (* DecoderDefault *)
    destruct (decoders w !! d) as [dc|] eqn:Hd; [|done].
    destruct (exited dc || reading dc || stopDecodeCh (m w)
              || negb (length (internalCH w) =? 0)%nat); [done|].
    destruct (decodeDefault jpegDecode dc w) as [[d1 w1]|] eqn:Hcycle; [|done].
    simpl. intros [= <-].
    pose proof Hcycle as Htimer. apply decodeDefault_timer in Htimer as (Hsame & _).
    apply decodeDefault_channel in Hcycle as (Hex & Hch).
    by eapply cycle_consistent.
  - (* DecoderBegin *)
    destruct (decoders w !! d) as [dc|] eqn:Hd; [|done].
    destruct (exited dc || reading dc || stopDecodeCh (m w)
              || negb (length (internalCH w) =? 0)%nat); [done|].
    assert (consistent (set_decoders (<[d:=set_reading true dc]> (decoders w)) w)) as Hc'.
    { eapply cycle_consistent; [done..|apply sameGoroutines_refl|by left]. }
    destruct (statusCode (m w)); by intros [= <-].
  - (* DecoderFinish *)
    destruct (decoders w !! d) as [dc|] eqn:Hd; [|done].
    destruct (exited dc || negb (reading dc)); [done|].
    destruct (decodePart jpegDecode dc w) as [[d1 w1]|] eqn:Hcycle; [|done].
    simpl. intros [= <-].
    pose proof Hcycle as Htimer. apply decodePart_timer in Htimer as (Hsame & _).
    apply decodePart_channel in Hcycle as (Hex & Hch).
    by eapply cycle_consistent.
  - (* Consume *)
    destruct (ImageStream (m w)) as [ch|] eqn:Hch; [|done].
    unfold receive. destruct (buf ch) as [|v rest] eqn:Hbuf; [done|].
    intros [= <-]. destruct Hc as (H1 & H2 & H3 & H4). split_consistent; try done. simpl.
    intros c [= <-]. destruct (H1 ch Hch) as [Hcap Hlen]. rewrite Hbuf in Hlen.
    split; simpl in *; [done|lia].
  - (* ConsumeStatus *)
    destruct (statusChannel (m w)); [done|]. intros [= <-]. by eapply consistent_frame.
Qed.

Lemma run_consistent (acts : list Action) w w' :
  consistent w -> run jpegDecode httpGet acts w = Next w' -> consistent w'.
Proof. apply run_invariant. intros a. apply step_consistent. Qed.

End Schedules.

(** ** The image channel, [Stop] and [Start] *)

Section Control.

Context {Image : Type}.
Variable jpegDecode : string -> option Image.
Variable httpGet : string -> option (string * Go.Reader).
Implicit Types w : World (Image := Image).
Implicit Types d : Decoder.

Lemma advances_length (rd rd' : Go.Reader) :
  advances rd rd' -> (String.length (Go.unread rd') <= String.length (Go.unread rd))%nat.
Proof. intros [c ->]. rewrite length_append. lia. Qed.

Lemma ReadString_shrinks (rd rd' : Go.Reader) (line : string) (err : option Go.error) :
  Go.ReadString rd = (line, err, rd') ->
  Go.unread rd <> EmptyString ->
  (String.length (Go.unread rd') < String.length (Go.unread rd))%nat.
Proof.
  unfold Go.ReadString. destruct (Go.cutLine (Go.unread rd)) as [[l r]|] eqn:Hcut;
    intros [= <- <- <-] Hne; simpl.
  - by apply cutLine_split in Hcut as [_ ?].
  - destruct (Go.unread rd); [done|simpl; lia].
Qed.

(** A cycle that finds bytes to read reads at least one, whatever the
    channel holds. *)
Lemma decodePart_shrinks d w d' w' :
  decodePart jpegDecode d w = Some (d', w') ->
  Go.unread (reader d) <> EmptyString ->
  (String.length (Go.unread (reader d')) < String.length (Go.unread (reader d)))%nat.
Proof.
  unfold decodePart. intros H Hne.
  destruct (Go.ReadString (reader d)) as [[line e] rd1] eqn:Hline.
  apply ReadString_shrinks in Hline; [|done].
  destruct e as [[]|]; [by simplify_eq..|].
  simpl in H. destruct (Go.Contains line (boundary d)); [|by simplify_eq].
  destruct (readImageHeaders rd1) as [[n e] rd2] eqn:Hhdr.
  apply readImageHeaders_advances, advances_length in Hhdr.
  destruct e; [simplify_eq; simpl; lia|].
  destruct ((n <? 0) || _); [done|].
  destruct (Go.ReadFull rd2 (Z.to_nat n)) as [[jpegData e] rd3] eqn:Hfull.
  apply ReadFull_advances, advances_length in Hfull.
  destruct e; [simplify_eq; simpl; lia|]. simpl in H.
  destruct (processAndSendImage _ _ _ _) as [[w1 started]|]; [|done].
  simplify_eq. simpl. lia.
Qed.

Lemma decodeDefault_not_paused d w d' w' :
  decodeDefault jpegDecode d w = Some (d', w') ->
  statusCode (m w) <> StatusPaused ->
  decodePart jpegDecode d w = Some (d', w') /\ statusCode (m w') <> StatusPaused.
Proof.
  intros H Hplay.
  assert (decodePart jpegDecode d w = Some (d', w')) as Hpart.
  { unfold decodeDefault in H. by destruct (statusCode (m w)). }
  split; [done|].
  apply decodePart_frame in Hpart as (_ & _ & _ & [[_ [->| ->]]|[jpegData Hsend]]);
    [done..|].
  apply processAndSendImage_effect in Hsend as [[-> _]|(img & ch & _ & _ & _ & _ & Heff)];
    [done|].
  cbv zeta in Heff.
  destruct (negb (timerStarted d) && (0 <? AutoStopTimer (opts (m w))));
    by destruct Heff as [-> _].
Qed.

(** A decoder that is not paused gets through its whole input in as
    many cycles as there are bytes, with nobody receiving from the
    channel. *)
Lemma cycles_reach_end (n : nat) d w d' w' :
  statusCode (m w) <> StatusPaused ->
  (String.length (Go.unread (reader d)) <= n)%nat ->
  cycles jpegDecode n d w = Some (d', w') ->
  Go.unread (reader d') = EmptyString.
Proof.
  revert d w. induction n as [|n IH]; simpl; intros d w Hplay Hlen H.
  - simplify_eq. destruct (Go.unread (reader d')); [done|simpl in Hlen; lia].
  - destruct (decodeDefault jpegDecode d w) as [[d1 w1]|] eqn:Hcycle; [|done].
    apply decodeDefault_not_paused in Hcycle as [Hpart Hplay1]; [|done].
    apply (IH d1 w1); [done| |done].
    destruct (decide (Go.unread (reader d) = EmptyString)) as [Hempty|Hne].
    + apply decodePart_frame in Hpart as (Hadv & _).
      apply advances_length in Hadv. rewrite Hempty in Hadv. simpl in Hadv. lia.
    + apply decodePart_shrinks in Hpart; [lia|done].
Qed.

Lemma live_none (ds : list Decoder) :
  live ds = 0%nat -> Forall (fun d => exited d = true) ds.
Proof.
  induction ds as [|d ds IH]; [constructor|].
  rewrite live_cons. destruct (exited d) eqn:E; [|lia].
  intros H. constructor; auto.
Qed.

(** C1, amended. In every process a schedule leads to, the image
    channel (and every channel [Start] handed out before) holds at most
    one frame; a frame decoded while one is waiting there is dropped
    and the waiting one stays; the send returns whether there is room
    or not, and a decoder gets through its whole input without anyone
    receiving from the channel. *)
Theorem frame_channel_keeps_waiting_frame (limit : N) (dotenv env : gmap string string)
    (o : MjpegOpts) (acts : list Action) w :
  run jpegDecode httpGet acts (newWorld limit dotenv env o) = Next w ->
  (pending w <= 1)%nat
  /\ Forall (fun ch => (length (buf ch) <= 1)%nat) (replaced w)
  /\ (forall ch jpegData started,
        ImageStream (m w) = Some ch -> closed ch = false -> buf ch <> [] ->
        processAndSendImage jpegDecode jpegData started w = Some (w, started))
  /\ (forall ch jpegData started,
        ImageStream (m w) = Some ch -> closed ch = false ->
        is_Some (processAndSendImage jpegDecode jpegData started w))
  /\ (forall d n d' w',
        statusCode (m w) <> StatusPaused ->
        (String.length (Go.unread (reader d)) <= n)%nat ->
        cycles jpegDecode n d w = Some (d', w') ->
        Go.unread (reader d') = EmptyString).
Proof.
  intros Hrun.
  pose proof (run_consistent jpegDecode httpGet acts _ _
                (consistent_newWorld limit dotenv env o) Hrun) as (H1 & H2 & _ & _).
  split; [|split; [|split; [|split]]].
  - unfold pending. destruct (ImageStream (m w)) as [ch|]; [|lia]. by apply H1.
  - eapply Forall_impl; [exact H2|]. by intros ch [_ ?].
  - intros ch jpegData started Hch Hopen Hbuf.
    apply (processAndSendImage_full jpegDecode jpegData started w ch Hch Hopen).
    destruct (H1 ch Hch) as [-> _]. destruct (buf ch); [done|simpl; lia].
  - intros ch jpegData started Hch Hopen.
    unfold processAndSendImage, trySend. rewrite Hch, Hopen.
    destruct (Go.len jpegData =? 0); [done|].
    destruct (jpegDecode jpegData); [|done].
    destruct (length (buf ch) <? cap ch)%nat; [|done].
    by destruct (negb started && _).
  - intros d n d' w' Hplay Hlen Hcycles. by eapply cycles_reach_end.
Qed.

(** C2, amended. [Stop] returns when a goroutine takes its command
    from the internal channel. When a [startFetching] goroutine takes
    it, that goroutine closes the stop channel and waits, and nothing
    else has changed yet: the decoders, the response bodies and the
    status are as they were. It goes on only when every decoder has
    returned, and then closes its response body and the image channel
    and sets the status to [StatusStopped]. A decoder that takes the
    command drops it. *)
Theorem Stop_returns_at_hand_over (limit : N) (dotenv env : gmap string string)
    (o : MjpegOpts) (acts : list Action) w :
  run jpegDecode httpGet acts (newWorld limit dotenv env o) = Next w ->
  (forall f k r id w',
     fetchers w !! f = Some (mkFetcher FSelect r) ->
     internalCH w !! k = Some (id, StopStream) ->
     step jpegDecode httpGet (FetcherRecv f k) w = Next w' ->
     returned w' = returned w ++ [id]
     /\ fetchers w' !! f = Some (mkFetcher FWait r)
     /\ stopDecodeCh (m w') = true
     /\ decoders w' = decoders w
     /\ bodies w' = bodies w
     /\ ImageStream (m w') = ImageStream (m w)
     /\ statusCode (m w') = statusCode (m w))
  /\ (forall f w',
        step jpegDecode httpGet (FetcherWake f) w = Next w' ->
        Forall (fun d => exited d = true) (decoders w)
        /\ exists r,
             fetchers w !! f = Some (mkFetcher FWait r)
             /\ fetchers w' !! f = Some (mkFetcher FDone r)
             /\ (forall b, r = Some b -> bodies w' !! b = Some true)
             /\ statusCode (m w') = StatusStopped
             /\ exists ch, ImageStream (m w') = Some ch /\ closed ch = true)
  /\ (forall (i k id : nat) w',
        internalCH w !! k = Some (id, StopStream) ->
        step jpegDecode httpGet (DecoderRecv i k) w = Next w' ->
        returned w' = returned w ++ [id]
        /\ m w' = m w /\ decoders w' = decoders w /\ fetchers w' = fetchers w
        /\ bodies w' = bodies w).
Proof.
  intros Hrun.
  pose proof (run_consistent jpegDecode httpGet acts _ _
                (consistent_newWorld limit dotenv env o) Hrun) as (_ & _ & Hwg & Hres).
  split; [|split].
  - intros f k r id w' Hf Hk. simpl. rewrite Hf. unfold takeSend. rewrite Hk. simpl.
    destruct (stopDecodeCh (m w)); [done|]. simpl. intros [= <-]. simpl.
    repeat split; try done.
    apply list_lookup_insert_eq. by eapply lookup_lt_Some.
  - intros f w'. simpl.
    destruct (fetchers w !! f) as [[[] r]|] eqn:Hf; try done.
    destruct (Z.eqb_spec (wg (m w)) 0) as [Hzero|]; [|done].
    destruct (fetchDeferred _ w) as [[f' w1]|] eqn:Hdef; [|done].
    simpl. intros [= <-].
    apply fetchDeferred_effect in Hdef
      as (-> & Hds & Hfs & Hrep & _ & Hbs & Hstatus & ch & ch' & Hch & Hclose & Hch').
    simpl in *. split.
    + apply live_none. lia.
    + exists r. split; [done|]. split; [|split; [|split]].
      * apply list_lookup_insert_eq. rewrite Hfs. by eapply lookup_lt_Some.
      * intros b ->. rewrite Hbs. apply list_lookup_insert_eq. by eapply (Hres f).
      * done.
      * exists ch'. split; [done|]. unfold close in Hclose.
        destruct (closed ch); by simplify_eq.
  - intros i k id w' Hk. simpl.
    destruct (decoders w !! i) as [dc|]; [|done]. destruct (exited dc || reading dc); [done|].
    unfold takeSend. rewrite Hk. intros [= <-]. done.
Qed.


End Control.

Lemma frame_channel_keeps_waiting_frame_witness :
  let acts := [CallStart; FetcherRecv 0 0; DecoderDefault 0] in
  let w := Sample.after Sample.get acts Sample.world in
  (pending w <= 1)%nat
  /\ processAndSendImage Sample.decode Sample.frameB true w = Some (w, true).
Proof.
  intros acts w.
  destruct (frame_channel_keeps_waiting_frame Sample.decode Sample.get Sample.limit ∅ ∅ Sample.options
              acts w) as (Hone & _ & Hdrop & _).
  { vm_compute. reflexivity. }
  split; [exact Hone|].
  apply (Hdrop (mkChan 1 [Sample.frameA] false)).
  - vm_compute. reflexivity.
  - reflexivity.
  - discriminate.
Defined.

(** The second frame of the sample stream arrives while the first is
    still waiting: the channel keeps the first. *)
Lemma waiting_frame_is_not_superseded :
  exists w w' : World (Image := string),
    run Sample.decode Sample.get [CallStart; FetcherRecv 0 0; DecoderDefault 0] Sample.world
    = Next w
    /\ ImageStream (m w) = Some (mkChan 1 [Sample.frameA] false)
    /\ Sample.decode Sample.frameB = Some Sample.frameB
    /\ processAndSendImage Sample.decode Sample.frameB true w = Some (w', true)
    /\ ImageStream (m w') = Some (mkChan 1 [Sample.frameA] false)
    /\ Sample.frameA <> Sample.frameB.
Proof.
  eexists. eexists. split; [vm_compute; reflexivity|].
  split; [reflexivity|]. split; [reflexivity|].
  split; [vm_compute; reflexivity|]. split; [reflexivity|]. discriminate.
Qed.

Lemma Stop_returns_at_hand_over_witness :
  let acts := [CallStart; FetcherRecv 0 0; DecoderDefault 0; CallStop] in
  let w := Sample.after Sample.get acts Sample.world in
  let w' := Sample.after Sample.get [FetcherRecv 0 0] w in
  returned w' = [0; 1]%nat
  /\ fetchers w' !! 0%nat = Some (mkFetcher FWait (Some 0%nat))
  /\ decoders w' = decoders w.
Proof.
  intros acts w w'.
  destruct (Stop_returns_at_hand_over Sample.decode Sample.get Sample.limit ∅ ∅ Sample.options acts w)
    as (Hstop & _).
  { vm_compute. reflexivity. }
  destruct (Hstop 0%nat 0%nat (Some 0%nat) 1%nat w') as (Hret & Hf & _ & Hds & _).
  - vm_compute. reflexivity.
  - vm_compute. reflexivity.
  - vm_compute. reflexivity.
  - split; [exact Hret|]. split; [exact Hf|exact Hds].
Defined.

(** [Stop] has returned (call 1), and the decoder has not: the response
    body is open and the status is [StatusPlaying]. *)
Lemma Stop_returns_before_decoder_exits :
  exists w : World (Image := string),
    run Sample.decode Sample.get
        [CallStart; FetcherRecv 0 0; DecoderDefault 0; CallStop; FetcherRecv 0 0]
        Sample.world = Next w
    /\ returned w = [0; 1]%nat
    /\ live (decoders w) = 1%nat
    /\ bodies w = [false]
    /\ statusCode (m w) = StatusPlaying.
Proof.
  eexists. split; [vm_compute; reflexivity|].
  split; [reflexivity|]. split; [reflexivity|]. split; reflexivity.
Qed.



(** ** Parts of the stream, one by one *)

Lemma readImageHeadersLoop_terminated (hdrs : list string) (blank rest : string) (e : Go.error) :
  Forall headerLine hdrs ->
  blankLine blank ->
  forall (fuel : nat) (cl : Z),
    (String.length (joinLines hdrs +:+ blank +:+ String Go.nl rest) < fuel)%nat ->
    readImageHeadersLoop fuel
      (Go.mkReader (joinLines hdrs +:+ blank +:+ String Go.nl rest) e) cl
    = (lengthAfter hdrs cl, None, Go.mkReader rest e).
Proof.
  intros Hhdrs [Hb1 Hb2].
  induction Hhdrs as [|l hdrs [Hl1 Hl2] _ IH]; intros fuel cl Hfuel.
  - destruct fuel as [|fuel]; [lia|]. simpl.
    unfold Go.ReadString. simpl. rewrite cutLine_line by done.
    by rewrite Hb2.
  - destruct fuel as [|fuel]; [lia|].
    cbn [joinLines] in *. rewrite append_assoc in *.
    cbn [readImageHeadersLoop]. unfold Go.ReadString. cbn [Go.unread Go.atEnd].
    change (String Go.nl (joinLines hdrs) +:+ blank +:+ String Go.nl rest)
      with (String Go.nl (joinLines hdrs +:+ blank +:+ String Go.nl rest)) in *.
    rewrite cutLine_line by done.
    destruct (String.eqb_spec (Go.TrimSpace (l +:+ String Go.nl EmptyString)) "") as [E|_];
      [done|].
    rewrite length_append in Hfuel. simpl in Hfuel.
    rewrite IH by lia. reflexivity.
Qed.

Lemma readImageHeaders_block (hdrs : list string) (blank rest : string) (e : Go.error) :
  Forall headerLine hdrs ->
  blankLine blank ->
  readImageHeaders (Go.mkReader (joinLines hdrs +:+ blank +:+ String Go.nl rest) e)
  = (lengthAfter hdrs 0, None, Go.mkReader rest e).
Proof.
  intros Hhdrs Hblank. apply readImageHeadersLoop_terminated; [done..|]. simpl. lia.
Qed.

Lemma lengthAfter_absent (hdrs : list string) (n : Z) :
  Forall (fun l => Go.HasPrefix (l +:+ String Go.nl EmptyString) "Content-Length:" = false)
    hdrs ->
  lengthAfter hdrs n = n.
Proof.
  unfold lengthAfter. intros H. revert n.
  induction H as [|l hdrs Hl _ IH]; intros n; simpl; [done|].
  assert (lengthFrom l n = n) as -> by (unfold lengthFrom; by rewrite Hl).
  apply IH.
Qed.

Lemma digits_spanNumber (ds tail : string) (acc v : Z) :
  Go.digits ds acc = Some v ->
  beginsWithDigit tail = false ->
  Go.spanNumber (ds +:+ tail) = ds.
Proof.
  revert acc. induction ds as [|c ds IH]; simpl; intros acc Hv Htail.
  - destruct tail as [|c tail]; [done|]. simpl in *. by rewrite Htail.
  - destruct (Go.isDigit c); [|done]. f_equal. by eapply IH.
Qed.

Lemma digits_bounds (ds : string) (acc v : Z) :
  Go.digits ds acc = Some v -> 0 <= acc -> 0 <= v.
Proof.
  revert acc. induction ds as [|c ds IH]; simpl; intros acc Hv Hacc.
  - by simplify_eq.
  - destruct (Go.isDigit c) eqn:Hc; [|done]. apply (IH _ Hv).
    unfold Go.isDigit in Hc. apply andb_prop in Hc as [Hlo _]. apply Nat.leb_le in Hlo.
    unfold Go.digitVal. lia.
Qed.

Lemma skipBlanks_digit (c : ascii) (r : string) :
  Go.isDigit c = true -> Go.skipBlanks (String c r) = String c r.
Proof.
  intros Hc.
  destruct c as [[] [] [] [] [] [] [] []]; try discriminate Hc;
    destruct r as [|d [|e r3]]; reflexivity.
Qed.

Lemma digit_no_sign (c : ascii) :
  Go.isDigit c = true -> Ascii.eqb c "-" = false /\ Ascii.eqb c "+" = false.
Proof.
  intros Hc. destruct c as [[] [] [] [] [] [] [] []]; try discriminate Hc; by split.
Qed.

(** A [Content-Length:] line with one space and a decimal number:
    the scan gives the number, whatever follows its digits. *)
Lemma Sscanf_d_decimal (ds tail : string) (v : Z) :
  ds <> EmptyString ->
  Go.digits ds 0 = Some v ->
  v <= Go.maxInt ->
  beginsWithDigit tail = false ->
  Go.Sscanf_d ("Content-Length: " +:+ ds +:+ tail) "Content-Length:" = Some v.
Proof.
  intros Hne Hv Hmax Htail.
  destruct ds as [|c ds]; [done|].
  assert (Go.isDigit c = true) as Hc.
  { simpl in Hv. by destruct (Go.isDigit c). }
  destruct (digit_no_sign c Hc) as [Hminus Hplus].
  unfold Go.Sscanf_d.
  change (Go.HasPrefix ("Content-Length: " +:+ String c ds +:+ tail) "Content-Length:")
    with true.
  change (Go.drop (String.length "Content-Length:")
            ("Content-Length: " +:+ String c ds +:+ tail))
    with (String " " (String c (ds +:+ tail))).
  change (Go.skipBlanks (String " " (String c (ds +:+ tail))))
    with (Go.skipBlanks (String c (ds +:+ tail))).
  rewrite skipBlanks_digit by done.
  cbn [String.length]. rewrite (proj2 (Nat.ltb_lt _ _)) by lia.
  rewrite Hminus, Hplus. cbn [orb].
  change (String c (ds +:+ tail)) with (String c ds +:+ tail).
  rewrite (digits_spanNumber (String c ds) tail 0 v Hv Htail).
  unfold Go.Atoi. rewrite Hminus, Hplus, Hv.
  assert (Go.inInt v = true) as ->; [|done].
  pose proof (digits_bounds _ _ _ Hv ltac:(lia)).
  unfold Go.inInt, Go.minInt. apply andb_true_intro. split; apply Z.leb_le; [lia|done].
Qed.

Lemma lengthFrom_decimal (ds tail : string) (v n : Z) :
  ds <> EmptyString ->
  Go.digits ds 0 = Some v ->
  v <= Go.maxInt ->
  beginsWithDigit tail = false ->
  lengthFrom ("Content-Length: " +:+ ds +:+ tail) n = v.
Proof.
  intros Hne Hv Hmax Htail. unfold lengthFrom.
  replace (("Content-Length: " +:+ ds +:+ tail) +:+ String Go.nl EmptyString)
    with ("Content-Length: " +:+ ds +:+ (tail +:+ String Go.nl EmptyString))
    by (by rewrite !append_assoc).
  rewrite (Sscanf_d_decimal ds _ v Hne Hv Hmax) by (by destruct tail).
  reflexivity.
Qed.

(** X1. [readImageHeaders] on a header block that has its blank line:
    it reads the header lines and the blank line and nothing behind
    it and reports no error; the length is 0 when no line begins with
    [Content-Length:], and when the last line that does is
    [Content-Length:], a space and a decimal number within [int], the
    length is that number, up to the first byte that is no digit,
    whatever an earlier line said. *)
Theorem readImageHeaders_terminated (hdrs : list string) (blank rest : string) (e : Go.error) :
  Forall headerLine hdrs ->
  blankLine blank ->
  (exists n, readImageHeaders (Go.mkReader (joinLines hdrs +:+ blank +:+ String Go.nl rest) e)
             = (n, None, Go.mkReader rest e))
  /\ (Forall (fun l => Go.HasPrefix (l +:+ String Go.nl EmptyString) "Content-Length:" = false)
        hdrs ->
      readImageHeaders (Go.mkReader (joinLines hdrs +:+ blank +:+ String Go.nl rest) e)
      = (0, None, Go.mkReader rest e))
  /\ (forall before after ds tail v,
        hdrs = before ++ ("Content-Length: " +:+ ds +:+ tail) :: after ->
        ds <> EmptyString ->
        Go.digits ds 0 = Some v ->
        v <= Go.maxInt ->
        beginsWithDigit tail = false ->
        Forall (fun l => Go.HasPrefix (l +:+ String Go.nl EmptyString) "Content-Length:" = false)
          after ->
        readImageHeaders (Go.mkReader (joinLines hdrs +:+ blank +:+ String Go.nl rest) e)
        = (v, None, Go.mkReader rest e)).
Proof.
  intros Hhdrs Hblank.
  rewrite (readImageHeaders_block hdrs blank rest e Hhdrs Hblank).
  split; [by eexists|]. split.
  - intros Hnone. by rewrite lengthAfter_absent.
  - intros before after ds tail v -> Hne Hv Hmax Htail Hafter.
    assert (lengthAfter (before ++ ("Content-Length: " +:+ ds +:+ tail) :: after) 0
            = lengthAfter after (lengthFrom ("Content-Length: " +:+ ds +:+ tail)
                                            (lengthAfter before 0))) as ->
      by (unfold lengthAfter; by rewrite foldl_app).
    rewrite (lengthFrom_decimal ds tail v _ Hne Hv Hmax Htail).
    by rewrite (lengthAfter_absent after v Hafter).
Qed.

(** A length of 7, then one of [1_0]: the scan of the second line
    stops at the underscore. *)
Lemma readImageHeaders_terminated_witness :
  readImageHeaders
    (Go.mkReader (joinLines ["Content-Length: 7" +:+ String "013" EmptyString;
                             "Content-Length: 1_0" +:+ String "013" EmptyString;
                             "Content-Type: image/jpeg" +:+ String "013" EmptyString]
                  +:+ String "013" EmptyString +:+ String Go.nl "1") Go.EOF)
  = (1, None, Go.mkReader "1" Go.EOF).
Proof.
  apply (proj2 (proj2 (readImageHeaders_terminated
                  ["Content-Length: 7" +:+ String "013" EmptyString;
                   "Content-Length: 1_0" +:+ String "013" EmptyString;
                   "Content-Type: image/jpeg" +:+ String "013" EmptyString]
                  (String "013" EmptyString) "1" Go.EOF
                  ltac:(repeat constructor; vm_compute; discriminate)
                  ltac:(split; vm_compute; reflexivity)))
           ["Content-Length: 7" +:+ String "013" EmptyString]
           ["Content-Type: image/jpeg" +:+ String "013" EmptyString]
           "1" ("_0" +:+ String "013" EmptyString) 1).
  - reflexivity.
  - discriminate.
  - reflexivity.
  - vm_compute. discriminate.
  - reflexivity.
  - repeat constructor.
Defined.


Lemma take_append_drop (n : nat) (s : string) : Go.take n s +:+ Go.drop n s = s.
Proof.
  revert s. induction n as [|n IH]; intros [|c s]; simpl; try done. by rewrite IH.
Qed.

Section Parts.

Context {Image : Type}.
Variable jpegDecode : string -> option Image.
Variable httpGet : string -> option (string * Go.Reader).
Implicit Types w : World (Image := Image).
Implicit Types d : Decoder.

Lemma decodePart_atPart d w (line : string) (hdrs : list string) (blank rest : string) :
  atPart d line hdrs blank rest ->
  decodePart jpegDecode d w
  = if (lengthAfter hdrs 0 <? 0) || (Z.of_N (maxAlloc w) <? lengthAfter hdrs 0) then None
    else
      let '(jpegData, err, rd) :=
        Go.ReadFull (Go.mkReader rest (Go.atEnd (reader d))) (Z.to_nat (lengthAfter hdrs 0)) in
      match err with
      | Some _ => Some (set_reader rd d, with_m (setStatusCode StatusError) w)
      | None =>
          match processAndSendImage jpegDecode jpegData (timerStarted d) w with
          | Some (w', started) =>
              Some (mkDecoder rd (boundary d) started (exited d) (reading d), w')
          | None => None
          end
      end.
Proof.
  intros (Hrd & Hline & Hbound & Hhdrs & Hblank).
  unfold decodePart, Go.ReadString. rewrite Hrd, cutLine_line by done.
  cbn [set_reader boundary reader]. rewrite Hbound.
  rewrite (readImageHeaders_block hdrs blank rest _ Hhdrs Hblank).
  destruct ((lengthAfter hdrs 0 <? 0) || _); [done|]. cbn [set_reader boundary reader].
  destruct (Go.ReadFull _ _) as [[jpegData err] rd]. by destruct err.
Qed.

Lemma decodeDefault_playing d w :
  statusCode (m w) <> StatusPaused -> decodeDefault jpegDecode d w = decodePart jpegDecode d w.
Proof. intros H. unfold decodeDefault. by destruct (statusCode (m w)). Qed.

(** X2. A part whose header block has no [Content-Length:] line is
    passed over without an error: nothing is delivered, the status
    stays, and the decoder goes on right behind the blank line, so
    that the payload bytes are read as lines by the next cycles. *)
Theorem part_without_length_is_passed_over d w (line : string) (hdrs : list string)
    (blank rest : string) :
  statusCode (m w) <> StatusPaused ->
  atPart d line hdrs blank rest ->
  Forall (fun l => Go.HasPrefix (l +:+ String Go.nl EmptyString) "Content-Length:" = false)
    hdrs ->
  decodeDefault jpegDecode d w
  = Some (set_reader (Go.mkReader rest (Go.atEnd (reader d))) d, w).
Proof.
  intros Hplay Hpart Hnone.
  rewrite decodeDefault_playing, (decodePart_atPart d w line hdrs blank rest) by done.
  rewrite (lengthAfter_absent hdrs 0 Hnone).
  destruct (Z.ltb_spec (Z.of_N (maxAlloc w)) 0); [lia|].
  simpl. unfold Go.ReadFull. simpl. unfold processAndSendImage. simpl.
  by destruct rest.
Qed.

(** X3. A part whose header block gives a negative content length
    makes the cycle panic: [make([]byte, contentLength)] is reached
    without a test of the sign. *)
Theorem negative_length_panics d w (line : string) (hdrs : list string) (blank rest : string) :
  statusCode (m w) <> StatusPaused ->
  atPart d line hdrs blank rest ->
  lengthAfter hdrs 0 < 0 ->
  decodeDefault jpegDecode d w = None.
Proof.
  intros Hplay Hpart Hneg.
  rewrite decodeDefault_playing, (decodePart_atPart d w line hdrs blank rest) by done.
  by destruct (Z.ltb_spec (lengthAfter hdrs 0) 0); [|lia].
Qed.

(** X21. A part that announces more bytes than a buffer can be made
    for makes the cycle panic as well, whatever the stream still has:
    [make([]byte, contentLength)] comes before the read. *)
Theorem oversize_length_panics d w (line : string) (hdrs : list string) (blank rest : string) :
  statusCode (m w) <> StatusPaused ->
  atPart d line hdrs blank rest ->
  Z.of_N (maxAlloc w) < lengthAfter hdrs 0 ->
  decodeDefault jpegDecode d w = None.
Proof.
  intros Hplay Hpart Hbig.
  rewrite decodeDefault_playing, (decodePart_atPart d w line hdrs blank rest) by done.
  destruct (Z.ltb_spec (Z.of_N (maxAlloc w)) (lengthAfter hdrs 0)); [|lia].
  by rewrite orb_true_r.
Qed.

(** X4. A part that announces more bytes than the stream still has,
    but no more than a buffer can be made for, is an error: the
    status becomes [StatusError], nothing is delivered, and the stream
    is used up. *)
Theorem truncated_payload_is_error d w (line : string) (hdrs : list string)
    (blank rest : string) :
  statusCode (m w) <> StatusPaused ->
  atPart d line hdrs blank rest ->
  Z.of_nat (String.length rest) < lengthAfter hdrs 0 <= Z.of_N (maxAlloc w) ->
  decodeDefault jpegDecode d w
  = Some (set_reader (Go.mkReader EmptyString (Go.atEnd (reader d))) d,
          with_m (setStatusCode StatusError) w).
Proof.
  intros Hplay Hpart Hlong.
  rewrite decodeDefault_playing, (decodePart_atPart d w line hdrs blank rest) by done.
  destruct (Z.ltb_spec (lengthAfter hdrs 0) 0); [lia|].
  destruct (Z.ltb_spec (Z.of_N (maxAlloc w)) (lengthAfter hdrs 0)); [lia|]. cbn [orb].
  unfold Go.ReadFull. cbn [Go.unread Go.atEnd].
  destruct (Nat.leb_spec (Z.to_nat (lengthAfter hdrs 0)) (String.length rest)); [lia|].
  reflexivity.
Qed.

(** X5. A part that announces [n] bytes the stream has, and a buffer
    can be made for: exactly the next [n] bytes go to
    [processAndSendImage], and the decoder goes on right behind them,
    whatever becomes of the frame. *)
Theorem payload_is_the_announced_bytes d w (line : string) (hdrs : list string)
    (blank rest : string) :
  statusCode (m w) <> StatusPaused ->
  atPart d line hdrs blank rest ->
  0 <= lengthAfter hdrs 0 <= Z.of_nat (String.length rest) ->
  lengthAfter hdrs 0 <= Z.of_N (maxAlloc w) ->
  let n := Z.to_nat (lengthAfter hdrs 0) in
  decodeDefault jpegDecode d w
  = match processAndSendImage jpegDecode (Go.take n rest) (timerStarted d) w with
    | Some (w', started) =>
        Some (mkDecoder (Go.mkReader (Go.drop n rest) (Go.atEnd (reader d)))
                        (boundary d) started (exited d) (reading d), w')
    | None => None
    end
    /\ String.length (Go.take n rest) = n
    /\ rest = Go.take n rest +:+ Go.drop n rest.
Proof.
  intros Hplay Hpart Hlen Hroom n. split; [|split].
  - rewrite decodeDefault_playing, (decodePart_atPart d w line hdrs blank rest) by done.
    destruct (Z.ltb_spec (lengthAfter hdrs 0) 0); [lia|].
    destruct (Z.ltb_spec (Z.of_N (maxAlloc w)) (lengthAfter hdrs 0)); [lia|]. cbn [orb].
    unfold Go.ReadFull. cbn [Go.unread Go.atEnd]. fold n.
    destruct (Nat.leb_spec n (String.length rest)); [|lia]. reflexivity.
  - assert (n <= String.length rest)%nat as Hn by lia. clearbody n. clear -Hn.
    revert rest Hn. induction n as [|n IH]; intros [|c rest]; simpl; intros; try lia.
    rewrite IH; lia.
  - symmetry. apply take_append_drop.
Qed.

(** X6. At the end of the stream the decoder neither returns nor
    reports anything: with [io.EOF] every further cycle leaves the
    decoder and the process exactly as they are; with another read
    error every cycle sets [StatusError] and changes nothing else. *)
Theorem end_of_stream_is_silent d w (n : nat) :
  Go.unread (reader d) = EmptyString ->
  (Go.atEnd (reader d) = Go.EOF -> cycles jpegDecode n d w = Some (d, w))
  /\ (Go.atEnd (reader d) <> Go.EOF -> statusCode (m w) <> StatusPaused ->
      decodeDefault jpegDecode d w = Some (d, with_m (setStatusCode StatusError) w)).
Proof.
  intros Hempty. split.
  - intros Heof. induction n as [|n IH]; simpl; [done|].
    assert (decodeDefault jpegDecode d w = Some (d, w)) as ->; [|done].
    unfold decodeDefault, decodePart, Go.ReadString. rewrite Hempty, Heof. simpl.
    destruct d as [[u a] b t x r]. simpl in *. subst. by destruct (statusCode (m w)).
  - intros Herr Hplay. rewrite decodeDefault_playing by done.
    unfold decodePart, Go.ReadString. rewrite Hempty. simpl.
    destruct d as [[u a] b t x r]. simpl in *. subst. by destruct a.
Qed.

End Parts.

Ltac sample_part :=
  unfold atPart, headerLine, blankLine;
  refine (conj _ (conj _ (conj _ (conj _ (conj _ _)))));
  [ vm_compute; reflexivity | reflexivity | vm_compute; reflexivity
  | repeat (constructor; [split; [reflexivity | vm_compute; discriminate]|]); constructor
  | reflexivity | vm_compute; reflexivity ].

Lemma part_without_length_is_passed_over_witness :
  decodeDefault Sample.decode
    (sampleDecoder ("--frame" +:+ Sample.crlf +:+ "Content-Type: image/jpeg" +:+ Sample.crlf
                    +:+ Sample.crlf +:+ Sample.frameA))
    samplePlaying
  = Some (sampleDecoder Sample.frameA, samplePlaying).
Proof.
  exact (part_without_length_is_passed_over Sample.decode
           (sampleDecoder ("--frame" +:+ Sample.crlf +:+ "Content-Type: image/jpeg"
                           +:+ Sample.crlf +:+ Sample.crlf +:+ Sample.frameA))
           samplePlaying
           ("--frame" +:+ cr) ["Content-Type: image/jpeg" +:+ cr] cr Sample.frameA
           ltac:(done) ltac:(sample_part) ltac:(repeat constructor)).
Defined.

Lemma negative_length_panics_witness :
  decodeDefault Sample.decode
    (sampleDecoder ("--frame" +:+ Sample.crlf +:+ "Content-Length: -5" +:+ Sample.crlf
                    +:+ Sample.crlf +:+ Sample.frameA))
    samplePlaying
  = None.
Proof.
  exact (negative_length_panics Sample.decode
           (sampleDecoder ("--frame" +:+ Sample.crlf +:+ "Content-Length: -5" +:+ Sample.crlf
                           +:+ Sample.crlf +:+ Sample.frameA))
           samplePlaying
           ("--frame" +:+ cr) ["Content-Length: -5" +:+ cr] cr Sample.frameA
           ltac:(done) ltac:(sample_part) ltac:(vm_compute; reflexivity)).
Defined.

Lemma oversize_length_panics_witness :
  decodeDefault Sample.decode
    (sampleDecoder ("--frame" +:+ Sample.crlf +:+ "Content-Length: 9223372036854775807"
                    +:+ Sample.crlf +:+ Sample.crlf +:+ Sample.frameA))
    samplePlaying
  = None.
Proof.
  exact (oversize_length_panics Sample.decode
           (sampleDecoder ("--frame" +:+ Sample.crlf +:+ "Content-Length: 9223372036854775807"
                           +:+ Sample.crlf +:+ Sample.crlf +:+ Sample.frameA))
           samplePlaying
           ("--frame" +:+ cr) ["Content-Length: 9223372036854775807" +:+ cr] cr Sample.frameA
           ltac:(done) ltac:(sample_part) ltac:(vm_compute; reflexivity)).
Defined.

Lemma truncated_payload_is_error_witness :
  decodeDefault Sample.decode
    (sampleDecoder ("--frame" +:+ Sample.crlf +:+ "Content-Length: 50" +:+ Sample.crlf
                    +:+ Sample.crlf +:+ Sample.frameA))
    samplePlaying
  = Some (sampleDecoder EmptyString, with_m (setStatusCode StatusError) samplePlaying).
Proof.
  exact (truncated_payload_is_error Sample.decode
           (sampleDecoder ("--frame" +:+ Sample.crlf +:+ "Content-Length: 50" +:+ Sample.crlf
                           +:+ Sample.crlf +:+ Sample.frameA))
           samplePlaying
           ("--frame" +:+ cr) ["Content-Length: 50" +:+ cr] cr Sample.frameA
           ltac:(done) ltac:(sample_part) ltac:(vm_compute; split; [reflexivity|discriminate])).
Defined.

Lemma payload_is_the_announced_bytes_witness :
  decodeDefault Sample.decode
    (sampleDecoder (Sample.part Sample.frameA +:+ Sample.part Sample.frameB)) samplePlaying
  = match processAndSendImage Sample.decode Sample.frameA false samplePlaying with
    | Some (w', started) =>
        Some (mkDecoder (Go.mkReader (Sample.crlf +:+ Sample.part Sample.frameB) Go.EOF)
                        "--frame" started false false, w')
    | None => None
    end.
Proof.
  exact (proj1 (payload_is_the_announced_bytes Sample.decode
           (sampleDecoder (Sample.part Sample.frameA +:+ Sample.part Sample.frameB))
           samplePlaying
           ("--frame" +:+ cr) ["Content-Type: image/jpeg" +:+ cr; "Content-Length: 5" +:+ cr]
           cr (Sample.frameA +:+ Sample.crlf +:+ Sample.part Sample.frameB)
           ltac:(done) ltac:(sample_part) ltac:(vm_compute; split; discriminate)
           ltac:(vm_compute; discriminate))).
Defined.

Lemma end_of_stream_is_silent_witness :
  cycles Sample.decode 7 (sampleDecoder EmptyString) samplePlaying
  = Some (sampleDecoder EmptyString, samplePlaying).
Proof.
  exact (proj1 (end_of_stream_is_silent Sample.decode (sampleDecoder EmptyString)
                  samplePlaying 7 eq_refl) eq_refl).
Defined.

(** ** What a schedule can never undo *)

Section Lifecycle.

Context {Image : Type}.
Variable jpegDecode : string -> option Image.
Variable httpGet : string -> option (string * Go.Reader).
Implicit Types w : World (Image := Image).
Implicit Types d : Decoder.

(** What a cycle does to the client, case by case. *)
Lemma decodePart_client d w d' w' :
  decodePart jpegDecode d w = Some (d', w') ->
  m w' = m w
  \/ m w' = setStatusCode StatusError (m w)
  \/ exists ch img,
       ImageStream (m w) = Some ch /\ closed ch = false
       /\ (m w' = set_ImageStream (Some (mkChan (cap ch) (buf ch ++ [img]) false)) (m w)
           \/ m w' = set_timer (Some (length (timers w)))
                       (set_ImageStream (Some (mkChan (cap ch) (buf ch ++ [img]) false)) (m w))).
Proof.
  intros Hpart.
  apply decodePart_frame in Hpart as (_ & _ & _ & [[_ [->| ->]]|[jpegData Hsend]]);
    [auto..|].
  apply processAndSendImage_effect in Hsend
    as [[-> _]|(img & ch & _ & Hch & Hopen & _ & Heff)]; [auto|].
  right. right. exists ch, img. split; [done|]. split; [done|].
  cbv zeta in Heff.
  destruct (negb (timerStarted d) && (0 <? AutoStopTimer (opts (m w))));
    destruct Heff as [-> _]; auto.
Qed.

Lemma decodeDefault_client d w d' w' :
  decodeDefault jpegDecode d w = Some (d', w') ->
  m w' = m w
  \/ m w' = setStatusCode StatusError (m w)
  \/ exists ch img,
       ImageStream (m w) = Some ch /\ closed ch = false
       /\ (m w' = set_ImageStream (Some (mkChan (cap ch) (buf ch ++ [img]) false)) (m w)
           \/ m w' = set_timer (Some (length (timers w)))
                       (set_ImageStream (Some (mkChan (cap ch) (buf ch ++ [img]) false)) (m w))).
Proof.
  intros H. apply (decodeDefault_part jpegDecode) in H as [Hpart|[-> ->]]; [|auto].
  by eapply decodePart_client.
Qed.

Ltac status_bound w :=
  simpl in *; destruct (statusChannel (m w)) as [|? [|? ?]]; simpl in *; try done; lia.

Lemma setStatusCode_waiting (s : StatusCode) (c : Mjpeg (Image := Image)) :
  (length (statusChannel c) <= 1)%nat ->
  (length (statusChannel (setStatusCode s c)) <= 1)%nat.
Proof.
  unfold setStatusCode. simpl. destruct (statusChannel c) as [|s0 [|s1 l]]; simpl; lia.
Qed.

Lemma fetchControl_status (f f' : Fetcher) (control : StreamControl) w w' :
  (length (statusChannel (m w)) <= 1)%nat ->
  fetchControl httpGet f control w = Some (f', w') ->
  (length (statusChannel (m w')) <= 1)%nat.
Proof.
  intros Hw. destruct control; simpl.
  - destruct (decide (statusCode (m w) = StatusPlaying)); [by intros [= <- <-]|].
    destruct (httpGet _) as [[contentType body]|].
    + unfold parseContentTypeAndBoundary. cbv zeta. intros [= <- <-]. status_bound w.
    + unfold fetchDeferred. simpl.
      destruct (ImageStream (m w)) as [ch|]; [|done]. destruct (close ch); [|done].
      intros [= <- <-]. status_bound w.
  - destruct (stopDecodeCh (m w)); [done|]. by intros [= <- <-].
  - intros [= <- <-]. status_bound w.
  - intros [= <- <-]. status_bound w.
Qed.

Lemma step_status (a : Action) w w' :
  (length (statusChannel (m w)) <= 1)%nat ->
  step jpegDecode httpGet a w = Next w' ->
  (length (statusChannel (m w')) <= 1)%nat.
Proof.
  intros Hw. destruct a; simpl.
  - unfold Start. destruct (ImageStream (m w)) as [ch|]; [destruct (close ch); [|done]|];
      by intros [= <-].
  - by intros [= <-].
  - by intros [= <-].
  - by intros [= <-].
  - intros [= <-]. unfold ResetTimer, afterFunc.
    match goal with |- context [0 <? ?x] => by destruct (timer (m w)), (0 <? x) end.
  - destruct (timers w !! i) as [t|]; [|done]. destruct (armed t); [|done]. by intros [= <-].
  - destruct (fetchers w !! f) as [[[] r]|]; try done.
    unfold takeSend. destruct (internalCH w !! k) as [[id control]|]; [|done].
    destruct (fetchControl httpGet _ control _) as [[f' w1]|] eqn:Hctl; [|done].
    intros [= <-]. by eapply fetchControl_status in Hctl.
  - destruct (fetchers w !! f) as [[[] r]|]; try done.
    destruct (wg (m w) =? 0); [|done].
    destruct (fetchDeferred _ w) as [[f' w1]|] eqn:Hdef; [|done].
    intros [= <-]. revert Hdef. unfold fetchDeferred.
    destruct r; simpl; (destruct (ImageStream _) as [ch|]; [|done]);
      (destruct (close ch); [|done]); intros [= <- <-]; status_bound w.
  - destruct (decoders w !! d) as [dc|]; [|done]. destruct (exited dc || reading dc); [done|].
    unfold takeSend. destruct (internalCH w !! k) as [[id control]|]; [|done].
    intros [= <-]. destruct control; status_bound w.
  - destruct (decoders w !! d) as [dc|]; [|done].
    destruct (exited dc || reading dc || negb (stopDecodeCh (m w))); [done|].
    unfold decodeStop. destruct (wg (m w) <? 1); [done|]. simpl. by intros [= <-].
  - destruct (decoders w !! d) as [dc|]; [|done].
    destruct (exited dc || reading dc || stopDecodeCh (m w)
              || negb (length (internalCH w) =? 0)%nat); [done|].
    destruct (decodeDefault jpegDecode dc w) as [[d1 w1]|] eqn:Hcycle; [|done].
    intros [= <-].
    apply decodeDefault_client in Hcycle
      as [Hm|[Hm|(ch & img & _ & _ & [Hm|Hm])]]; simpl; rewrite Hm; status_bound w.
  - destruct (decoders w !! d) as [dc|]; [|done].
    destruct (exited dc || reading dc || stopDecodeCh (m w)
              || negb (length (internalCH w) =? 0)%nat); [done|].
    destruct (statusCode (m w)); by intros [= <-].
  - destruct (decoders w !! d) as [dc|]; [|done].
    destruct (exited dc || negb (reading dc)); [done|].
    destruct (decodePart jpegDecode dc w) as [[d1 w1]|] eqn:Hcycle; [|done].
    intros [= <-].
    apply decodePart_client in Hcycle
      as [Hm|[Hm|(ch & img & _ & _ & [Hm|Hm])]]; simpl; rewrite Hm; status_bound w.
  - destruct (ImageStream (m w)) as [ch|]; [|done].
    destruct (receive ch) as [[v ch']|]; [|done]. by intros [= <-].
  - destruct (statusChannel (m w)) as [|s rest] eqn:Hs; [done|]. intros [= <-]. simpl in *. lia.
Qed.

(** X7. The status channel never holds more than one status, and
    setting a status never waits for its reader: a status set while
    another one is still unread changes the status code and is not
    sent, so that what the observer reads next is the older status. *)
Theorem status_updates_are_lossy (limit : N) (dotenv env : gmap string string)
    (o : MjpegOpts) (acts : list Action) w (s : StatusCode) :
  run jpegDecode httpGet acts (newWorld limit dotenv env o) = Next w ->
  (length (statusChannel (m w)) <= 1)%nat
  /\ statusCode (setStatusCode s (m w)) = s
  /\ (statusChannel (m w) = [] -> statusChannel (setStatusCode s (m w)) = [s])
  /\ (statusChannel (m w) <> [] ->
      statusChannel (setStatusCode s (m w)) = statusChannel (m w)).
Proof.
  intros Hrun.
  assert (length (statusChannel (m w)) <= 1)%nat as Hone.
  { refine (run_invariant jpegDecode httpGet
              (fun w => (length (statusChannel (m w)) <= 1)%nat) _ acts _ w _ Hrun);
      [intros a; apply step_status | simpl; lia]. }
  split; [done|]. split; [done|]. unfold setStatusCode. simpl.
  destruct (statusChannel (m w)) as [|s0 [|s1 l]]; simpl in *; try lia; by split.
Qed.

(** Once closed, the image channel stays closed. *)
Lemma step_streamClosed (a : Action) w w' :
  streamClosed w -> step jpegDecode httpGet a w = Next w' -> streamClosed w'.
Proof.
  intros (ch & Hch & Hclosed). unfold streamClosed. destruct a; simpl.
  - unfold Start, close. rewrite Hch, Hclosed. done.
  - intros [= <-]. eauto.
  - intros [= <-]. eauto.
  - intros [= <-]. eauto.
  - intros [= <-]. exists ch. split; [|done]. unfold ResetTimer, afterFunc.
    match goal with |- context [0 <? ?x] => by destruct (timer (m w)), (0 <? x) end.
  - destruct (timers w !! i) as [t|]; [|done]. destruct (armed t); [|done].
    intros [= <-]. eauto.
  - destruct (fetchers w !! f) as [[[] r]|]; try done.
    unfold takeSend. destruct (internalCH w !! k) as [[id control]|]; [|done].
    destruct control; simpl.
    + destruct (decide (statusCode (m w) = StatusPlaying)); [intros [= <-]; eauto|].
      destruct (httpGet _) as [[contentType body]|].
      * unfold parseContentTypeAndBoundary. cbv zeta. simpl. intros [= <-]. simpl. eauto.
      * unfold fetchDeferred, close. simpl. rewrite Hch, Hclosed. done.
    + destruct (stopDecodeCh (m w)); [done|]. simpl. intros [= <-]. simpl. eauto.
    + intros [= <-]. simpl. eauto.
    + intros [= <-]. simpl. eauto.
  - destruct (fetchers w !! f) as [[[] r]|]; try done.
    destruct (wg (m w) =? 0); [|done].
    unfold fetchDeferred, close. destruct r; simpl; by rewrite Hch, Hclosed.
  - destruct (decoders w !! d) as [dc|]; [|done]. destruct (exited dc || reading dc); [done|].
    unfold takeSend. destruct (internalCH w !! k) as [[id control]|]; [|done].
    intros [= <-]. destruct control; simpl; eauto.
  - destruct (decoders w !! d) as [dc|]; [|done].
    destruct (exited dc || reading dc || negb (stopDecodeCh (m w))); [done|].
    unfold decodeStop. destruct (wg (m w) <? 1); [done|]. simpl. intros [= <-]. simpl. eauto.
  - destruct (decoders w !! d) as [dc|]; [|done].
    destruct (exited dc || reading dc || stopDecodeCh (m w)
              || negb (length (internalCH w) =? 0)%nat); [done|].
    destruct (decodeDefault jpegDecode dc w) as [[d1 w1]|] eqn:Hcycle; [|done].
    simpl. intros [= <-]. simpl.
    apply decodeDefault_client in Hcycle
      as [-> |[-> |(ch0 & img & Hch0 & Hopen & _)]]; [eauto..|].
    congruence.
  - destruct (decoders w !! d) as [dc|]; [|done].
    destruct (exited dc || reading dc || stopDecodeCh (m w)
              || negb (length (internalCH w) =? 0)%nat); [done|].
    destruct (statusCode (m w)); intros [= <-]; simpl; eauto.
  - destruct (decoders w !! d) as [dc|]; [|done].
    destruct (exited dc || negb (reading dc)); [done|].
    destruct (decodePart jpegDecode dc w) as [[d1 w1]|] eqn:Hcycle; [|done].
    simpl. intros [= <-]. simpl.
    apply decodePart_client in Hcycle
      as [-> |[-> |(ch0 & img & Hch0 & Hopen & _)]]; [eauto..|].
    congruence.
  - rewrite Hch. unfold receive. destruct (buf ch); [done|]. intros [= <-]. simpl. eauto.
  - destruct (statusChannel (m w)); [done|]. intros [= <-]. simpl. eauto.
Qed.

(** X8. The client cannot be started again: once a [startFetching]
    goroutine has finished after a [Stop], the image channel is closed, it stays closed
    whatever runs afterwards, and every later call of [Start] panics
    on closing it a second time. *)
Theorem no_restart_after_shutdown (f : nat) w0 w (acts : list Action) w' :
  step jpegDecode httpGet (FetcherWake f) w0 = Next w ->
  run jpegDecode httpGet acts w = Next w' ->
  streamClosed w'
  /\ step jpegDecode httpGet CallStart w' = Panic
  /\ ~ In CallStart acts.
Proof.
  intros Hwake Hrun.
  assert (streamClosed w) as Hclosed.
  { simpl in Hwake. destruct (fetchers w0 !! f) as [[[] r]|]; try done.
    destruct (wg (m w0) =? 0); [|done].
    destruct (fetchDeferred _ w0) as [[f' w1]|] eqn:Hdef; [|done].
    simpl in Hwake. simplify_eq.
    apply fetchDeferred_effect in Hdef
      as (_ & _ & _ & _ & _ & _ & _ & ch & ch' & _ & Hc & Hch').
    exists ch'. split; [done|]. unfold close in Hc. destruct (closed ch); by simplify_eq. }
  clear Hwake.
  assert (forall w, streamClosed w -> step jpegDecode httpGet CallStart w = Panic) as Hpanic.
  { intros w1 (ch & Hch & Hc). simpl. unfold Start, close. by rewrite Hch, Hc. }
  revert w Hclosed Hrun. induction acts as [|a acts IH]; simpl; intros w Hclosed Hrun.
  - simplify_eq. split; [done|]. split; [by apply Hpanic|]. by intros [].
  - destruct (step jpegDecode httpGet a w) as [w1| |] eqn:Hstep; try done.
    destruct (IH w1) as (H1 & H2 & H3); [by eapply step_streamClosed|done|].
    split; [done|]. split; [done|]. intros [->|Hin]; [|done].
    by rewrite (Hpanic w Hclosed) in Hstep.
Qed.

(** Once closed, the stop channel stays closed. *)
Lemma step_stopped (a : Action) w w' :
  stopDecodeCh (m w) = true -> step jpegDecode httpGet a w = Next w' ->
  stopDecodeCh (m w') = true.
Proof.
  intros Hstop. destruct a; simpl.
  - unfold Start. destruct (ImageStream (m w)) as [ch|]; [destruct (close ch); [|done]|];
      by intros [= <-].
  - by intros [= <-].
  - by intros [= <-].
  - by intros [= <-].
  - intros [= <-]. unfold ResetTimer, afterFunc.
    match goal with |- context [0 <? ?x] => by destruct (timer (m w)), (0 <? x) end.
  - destruct (timers w !! i) as [t|]; [|done]. destruct (armed t); [|done]. by intros [= <-].
  - destruct (fetchers w !! f) as [[[] r]|]; try done.
    unfold takeSend. destruct (internalCH w !! k) as [[id control]|]; [|done].
    destruct control; simpl.
    + destruct (decide (statusCode (m w) = StatusPlaying)); [by intros [= <-]|].
      destruct (httpGet _) as [[contentType body]|].
      * unfold parseContentTypeAndBoundary. cbv zeta. simpl. by intros [= <-].
      * unfold fetchDeferred. simpl.
        destruct (ImageStream (m w)) as [ch|]; [|done]. destruct (close ch); [|done].
        simpl. by intros [= <-].
    + by rewrite Hstop.
    + by intros [= <-].
    + by intros [= <-].
  - destruct (fetchers w !! f) as [[[] r]|]; try done.
    destruct (wg (m w) =? 0); [|done].
    unfold fetchDeferred.
    destruct r; simpl; (destruct (ImageStream (m w)) as [ch|]; [|done]);
      (destruct (close ch); [|done]); simpl; by intros [= <-].
  - destruct (decoders w !! d) as [dc|]; [|done]. destruct (exited dc || reading dc); [done|].
    unfold takeSend. destruct (internalCH w !! k) as [[id control]|]; [|done].
    intros [= <-]. by destruct control.
  - destruct (decoders w !! d) as [dc|]; [|done].
    destruct (exited dc || reading dc || negb (stopDecodeCh (m w))); [done|].
    unfold decodeStop. destruct (wg (m w) <? 1); [done|]. simpl. by intros [= <-].
  - destruct (decoders w !! d) as [dc|]; [|done].
    rewrite Hstop, !orb_true_r. done.
  - destruct (decoders w !! d) as [dc|]; [|done].
    rewrite Hstop, !orb_true_r. done.
  - destruct (decoders w !! d) as [dc|]; [|done].
    destruct (exited dc || negb (reading dc)); [done|].
    destruct (decodePart jpegDecode dc w) as [[d1 w1]|] eqn:Hcycle; [|done].
    simpl. intros [= <-]. simpl.
    apply decodePart_timer in Hcycle as ((_ & _ & _ & _ & _ & _ & _ & _ & _ & Hkept) & _).
    congruence.
  - destruct (ImageStream (m w)) as [ch|]; [|done].
    destruct (receive ch) as [[v ch']|]; [|done]. by intros [= <-].
  - destruct (statusChannel (m w)); [done|]. by intros [= <-].
Qed.

(** X9. A [Stop] is final for decoding, and a second one is fatal:
    once a [startFetching] goroutine has taken a stop command, the
    stop channel stays closed whatever runs afterwards; from then on
    no decoder begins a cycle, in one go or in two pieces, a decoder
    started later can only return, and a [startFetching] goroutine
    that takes another stop command panics on closing the stop
    channel again. *)
Theorem stop_is_final (acts : list Action) w w' :
  stopDecodeCh (m w) = true ->
  run jpegDecode httpGet acts w = Next w' ->
  stopDecodeCh (m w') = true
  /\ (forall i, step jpegDecode httpGet (DecoderDefault i) w' = Disabled)
  /\ (forall i, step jpegDecode httpGet (DecoderBegin i) w' = Disabled)
  /\ (forall f k r id,
        fetchers w' !! f = Some (mkFetcher FSelect r) ->
        internalCH w' !! k = Some (id, StopStream) ->
        step jpegDecode httpGet (FetcherRecv f k) w' = Panic).
Proof.
  intros Hstop Hrun.
  assert (stopDecodeCh (m w') = true) as Hstop'.
  { eapply (run_invariant jpegDecode httpGet (fun w => stopDecodeCh (m w) = true)); [|done..].
    intros a. apply step_stopped. }
  split; [done|]. split; [|split].
  - intros i. simpl. destruct (decoders w' !! i) as [dc|]; [|done].
    by rewrite Hstop', !orb_true_r.
  - intros i. simpl. destruct (decoders w' !! i) as [dc|]; [|done].
    by rewrite Hstop', !orb_true_r.
  - intros f k r id Hf Hk. simpl. rewrite Hf. unfold takeSend. rewrite Hk. simpl.
    by rewrite Hstop'.
Qed.

Lemma live_some (ds : list Decoder) (i : nat) d :
  ds !! i = Some d -> exited d = false -> (1 <= live ds)%nat.
Proof.
  intros Hi Hex. rewrite <- (take_drop_middle ds i d Hi).
  rewrite live_app, live_cons, Hex. lia.
Qed.

(** X10. The wait group never goes negative: in every process a
    schedule leads to, a decoder that returns finds the counter
    positive, so that its deferred [m.wg.Done()] does not panic, and
    the counter is the number of decoders still running. *)
Theorem wait_group_counts_decoders (limit : N) (dotenv env : gmap string string)
    (o : MjpegOpts) (acts : list Action) w (i : nat) :
  run jpegDecode httpGet acts (newWorld limit dotenv env o) = Next w ->
  wg (m w) = Z.of_nat (live (decoders w))
  /\ step jpegDecode httpGet (DecoderStop i) w <> Panic.
Proof.
  intros Hrun.
  pose proof (run_consistent jpegDecode httpGet acts _ _
                (consistent_newWorld limit dotenv env o) Hrun) as (_ & _ & Hwg & _).
  split; [done|]. simpl.
  destruct (decoders w !! i) as [dc|] eqn:Hd; [|done].
  destruct (exited dc) eqn:Hex; [done|]. simpl.
  destruct (reading dc); [done|]. simpl.
  destruct (stopDecodeCh (m w)); [|done]. simpl.
  unfold decodeStop. pose proof (live_some _ _ _ Hd Hex).
  destruct (Z.ltb_spec (wg (m w)) 1); [lia|done].
Qed.

(** A decoder returns in one way only. *)
Lemma step_decoder_exit (a : Action) w w' (i : nat) d :
  step jpegDecode httpGet a w = Next w' ->
  decoders w !! i = Some d ->
  exists d', decoders w' !! i = Some d'
             /\ (exited d = false -> exited d' = true ->
                 a = DecoderStop i /\ stopDecodeCh (m w) = true).
Proof.
  intros Hstep Hd.
  assert (forall w1, decoders w1 = decoders w ->
            exists d', decoders w1 !! i = Some d'
                       /\ (exited d = false -> exited d' = true ->
                           a = DecoderStop i /\ stopDecodeCh (m w) = true)) as Hsame.
  { intros w1 ->. exists d. split; [done|]. congruence. }
  destruct a; simpl in Hstep.
  - unfold Start in Hstep.
    destruct (ImageStream (m w)) as [ch|]; [destruct (close ch); [|done]|];
      simplify_eq; by apply Hsame.
  - simplify_eq. by apply Hsame.
  - simplify_eq. by apply Hsame.
  - simplify_eq. by apply Hsame.
  - simplify_eq. apply Hsame. unfold ResetTimer, afterFunc.
    match goal with |- context [0 <? ?x] => by destruct (timer (m w)), (0 <? x) end.
  - destruct (timers w !! i0) as [t|]; [|done]. destruct (armed t); [|done].
    simplify_eq. by apply Hsame.
  - destruct (fetchers w !! f) as [[[] r]|]; try done.
    unfold takeSend in Hstep. destruct (internalCH w !! k) as [[id control]|]; [|done].
    destruct control; simpl in Hstep.
    + destruct (decide (statusCode (m w) = StatusPlaying));
        [simpl in Hstep; simplify_eq; by apply Hsame|].
      destruct (httpGet _) as [[contentType body]|].
      * unfold parseContentTypeAndBoundary in Hstep. cbv zeta in Hstep. simpl in Hstep.
        simplify_eq. simpl. exists d. split; [by apply lookup_app_l_Some|congruence].
      * unfold fetchDeferred in Hstep. simpl in Hstep.
        destruct (ImageStream (m w)) as [ch|]; [|done]. destruct (close ch); [|done].
        simpl in Hstep. simplify_eq. by apply Hsame.
    + destruct (stopDecodeCh (m w)); [done|]. simpl in Hstep. simplify_eq. by apply Hsame.
    + simplify_eq. by apply Hsame.
    + simplify_eq. by apply Hsame.
  - destruct (fetchers w !! f) as [[[] r]|]; try done.
    destruct (wg (m w) =? 0); [|done].
    destruct (fetchDeferred _ w) as [[f' w1]|] eqn:Hdef; [|done].
    apply fetchDeferred_effect in Hdef as (_ & Hds & _).
    simpl in Hstep. simplify_eq. by apply Hsame.
  - destruct (decoders w !! d0) as [dc|]; [|done].
    destruct (exited dc || reading dc); [done|].
    unfold takeSend in Hstep. destruct (internalCH w !! k) as [[id control]|]; [|done].
    simplify_eq. apply Hsame. by destruct control.
  - destruct (decoders w !! d0) as [dc|] eqn:Hd0; [|done].
    destruct (exited dc) eqn:Hex; [done|]. simpl in Hstep.
    destruct (reading dc) eqn:Hrd; [done|]. simpl in Hstep.
    destruct (stopDecodeCh (m w)) eqn:Hstop; [|done]. simpl in Hstep.
    unfold decodeStop in Hstep. destruct (wg (m w) <? 1); [done|].
    simpl in Hstep. simplify_eq. simpl.
    destruct (decide (d0 = i)) as [->|Hne].
    + eexists. split; [apply list_lookup_insert_eq; by eapply lookup_lt_Some|]. done.
    + exists d. split; [by rewrite list_lookup_insert_ne|congruence].
  - destruct (decoders w !! d0) as [dc|] eqn:Hd0; [|done].
    destruct (exited dc || reading dc || stopDecodeCh (m w)
              || negb (length (internalCH w) =? 0)%nat); [done|].
    destruct (decodeDefault jpegDecode dc w) as [[d1 w1]|] eqn:Hcycle; [|done].
    simpl in Hstep. simplify_eq. simpl.
    pose proof Hcycle as Hch. apply decodeDefault_channel in Hch as (Hex & _).
    apply decodeDefault_timer in Hcycle as ((Hds & _) & _). rewrite Hds.
    destruct (decide (d0 = i)) as [->|Hne].
    + exists d1. split; [apply list_lookup_insert_eq; by eapply lookup_lt_Some|].
      simplify_eq. congruence.
    + exists d. split; [by rewrite list_lookup_insert_ne|congruence].
  - destruct (decoders w !! d0) as [dc|] eqn:Hd0; [|done].
    destruct (exited dc || reading dc || stopDecodeCh (m w)
              || negb (length (internalCH w) =? 0)%nat); [done|].
    destruct (statusCode (m w)); simplify_eq; try (by apply Hsame); simpl;
      (destruct (decide (d0 = i)) as [->|Hne];
       [ eexists; split; [apply list_lookup_insert_eq; by eapply lookup_lt_Some|];
         simplify_eq; simpl; congruence
       | exists d; split; [by rewrite list_lookup_insert_ne|congruence] ]).
  - destruct (decoders w !! d0) as [dc|] eqn:Hd0; [|done].
    destruct (exited dc || negb (reading dc)); [done|].
    destruct (decodePart jpegDecode dc w) as [[d1 w1]|] eqn:Hcycle; [|done].
    simpl in Hstep. simplify_eq. simpl.
    pose proof Hcycle as Hch. apply decodePart_channel in Hch as (Hex & _).
    apply decodePart_timer in Hcycle as ((Hds & _) & _). rewrite Hds.
    destruct (decide (d0 = i)) as [->|Hne].
    + eexists. split; [apply list_lookup_insert_eq; by eapply lookup_lt_Some|].
      simplify_eq. simpl. congruence.
    + exists d. split; [by rewrite list_lookup_insert_ne|congruence].
  - destruct (ImageStream (m w)) as [ch|]; [|done].
    destruct (receive ch) as [[v ch']|]; [|done]. simplify_eq. by apply Hsame.
  - destruct (statusChannel (m w)); [done|]. simplify_eq. by apply Hsame.
Qed.

(** X11. A decoder returns only through the stop channel: if a
    decoder that was running at the start of a schedule has returned
    at its end, the schedule made it take the [<-m.stopDecodeCh]
    case, and the stop channel is closed. The end of the stream, read
    errors and rejected payloads never end it. *)
Theorem decoder_returns_only_when_stopped (acts : list Action) w w' (i : nat) d :
  run jpegDecode httpGet acts w = Next w' ->
  decoders w !! i = Some d ->
  exists d', decoders w' !! i = Some d'
             /\ (exited d = false -> exited d' = true ->
                 In (DecoderStop i) acts /\ stopDecodeCh (m w') = true).
Proof.
  revert w d. induction acts as [|a acts IH]; simpl; intros w d Hrun Hd.
  - simplify_eq. exists d. split; [done|]. congruence.
  - destruct (step jpegDecode httpGet a w) as [w1| |] eqn:Hstep; try done.
    destruct (step_decoder_exit a w w1 i d Hstep Hd) as (d1 & Hd1 & Hexit).
    destruct (IH w1 d1 Hrun Hd1) as (d' & Hd' & Hfin).
    exists d'. split; [done|]. intros Hex Hex'.
    destruct (exited d1) eqn:Hex1.
    + destruct (Hexit Hex eq_refl) as [-> Hstop]. split; [by left|].
      eapply (run_invariant jpegDecode httpGet (fun w => stopDecodeCh (m w) = true));
        [|by eapply step_stopped|done].
      intros a. apply step_stopped.
    + destruct (Hfin eq_refl Hex'). auto.
Qed.

End Lifecycle.

(** ** Cycles in two pieces: pauses and the watchdog over schedules *)

Section TwoPieces.

Context {Image : Type}.
Variable jpegDecode : string -> option Image.
Variable httpGet : string -> option (string * Go.Reader).
Implicit Types w : World (Image := Image).
Implicit Types d : Decoder.


Lemma decodePart_reading d w d' w' :
  decodePart jpegDecode d w = Some (d', w') -> reading d' = reading d.
Proof.
  unfold decodePart.
  destruct (Go.ReadString (reader d)) as [[line e] rd1].
  destruct e as [[]|]; [by intros [= <- <-]..|]. cbv zeta.
  destruct (Go.Contains line _); [|by intros [= <- <-]].
  destruct (readImageHeaders rd1) as [[n e] rd2].
  destruct e; [by intros [= <- <-]|].
  destruct ((n <? 0) || _); [done|].
  destruct (Go.ReadFull rd2 (Z.to_nat n)) as [[jpegData e] rd3].
  destruct e; [by intros [= <- <-]|].
  destruct (processAndSendImage _ _ _ _) as [[w1 started]|]; [|done].
  by intros [= <- <-].
Qed.










Lemma processAndSendImage_decoders (jpegData : string) (started : bool)
    (ds : list Decoder) w :
  processAndSendImage jpegDecode jpegData started (set_decoders ds w)
  = match processAndSendImage jpegDecode jpegData started w with
    | Some (w', started') => Some (set_decoders ds w', started')
    | None => None
    end.
Proof.
  unfold processAndSendImage. simpl.
  destruct (Go.len jpegData =? 0); [done|].
  destruct (jpegDecode jpegData) as [img|]; [|done].
  destruct (ImageStream (m w)) as [ch|]; [|done].
  destruct (trySend ch img); try done. simpl.
  destruct (negb started && (0 <? AutoStopTimer (opts (m w)))); reflexivity.
Qed.

Lemma decodePart_pieces (b : bool) (ds : list Decoder) d w :
  decodePart jpegDecode (set_reading b d) (set_decoders ds w)
  = match decodePart jpegDecode d w with
    | Some (d', w') => Some (set_reading b d', set_decoders ds w')
    | None => None
    end.
Proof.
  unfold decodePart. cbn [set_reading reader boundary].
  destruct (Go.ReadString (reader d)) as [[line e] rd1].
  destruct e as [[]|]; [done..|]. cbv zeta.
  destruct (Go.Contains line _); [|done].
  destruct (readImageHeaders rd1) as [[n e] rd2].
  destruct e; [done|].
  change (maxAlloc (set_decoders ds w)) with (maxAlloc w).
  destruct ((n <? 0) || _); [done|].
  destruct (Go.ReadFull rd2 (Z.to_nat n)) as [[jpegData e] rd3].
  destruct e; [done|]. cbn [set_reader timerStarted].
  rewrite processAndSendImage_decoders.
  destruct (processAndSendImage _ _ _ _) as [[w1 started]|]; done.
Qed.

(** The two ways in which a schedule runs a cycle agree: a cycle in
    two pieces with nothing in between is the cycle in one go. *)
Lemma cycle_in_two_pieces (i : nat) w :
  statusCode (m w) <> StatusPaused ->
  run jpegDecode httpGet [DecoderBegin i; DecoderFinish i] w
  = step jpegDecode httpGet (DecoderDefault i) w.
Proof.
  intros Hplay. cbn [run].
  cbn [step]. 
  destruct (decoders w !! i) as [dc|] eqn:Hdc; [|done].
  destruct (exited dc) eqn:Hex; [done|]. destruct (reading dc) eqn:Hrd; [done|].
  cbn [orb].
  destruct (stopDecodeCh (m w) || negb (length (internalCH w) =? 0)%nat); [done|].
  assert (match statusCode (m w) with
          | StatusPaused => Next w
          | _ => Next (set_decoders (<[i:=set_reading true dc]> (decoders w)) w)
          end = Next (set_decoders (<[i:=set_reading true dc]> (decoders w)) w)) as ->
    by (by destruct (statusCode (m w))).
  cbn [decoders set_decoders].
  rewrite list_lookup_insert_eq by (by eapply lookup_lt_Some).
  assert (exited (set_reading true dc) || negb (reading (set_reading true dc)) = false)
    as -> by (simpl; by rewrite Hex).
  rewrite decodePart_pieces, (decodeDefault_playing jpegDecode dc w Hplay).
  destruct (decodePart jpegDecode dc w) as [[d1 w1]|] eqn:Hc; [|done].
  pose proof (decodePart_reading dc w d1 w1 Hc) as Hrd1.
  apply decodePart_timer in Hc as ((Hds & _) & _).
  cbn [liftD]. f_equal. unfold set_decoders. cbn [decoders m timers replaced bodies internalCH
    fetchers calls returned maxAlloc].
  rewrite Hds, list_insert_insert_eq.
  f_equal. f_equal. rewrite Hrd in Hrd1. destruct d1. simpl in *. by subst.
Qed.

End TwoPieces.





(** ** More on the boundary token and the environment *)

Lemma boundaryLoop_dashes (parts : list string) :
  boundaryLoop parts EmptyString = EmptyString
  \/ exists v, boundaryLoop parts EmptyString = "--" +:+ v.
Proof.
  induction parts as [|p parts IH]; simpl; [by left|].
  destruct (Go.HasPrefix (Go.TrimSpace p) "boundary="); [|done].
  right. by eexists.
Qed.

(** X12. Whatever the [Content-Type] header is, the boundary token
    begins with the two dashes: it is never empty, so that not every
    line of the stream counts as a boundary line. *)
Theorem boundary_token_begins_with_dashes (contentType : string) :
  exists v, fst (parseContentTypeAndBoundary contentType) = "--" +:+ v.
Proof.
  unfold parseContentTypeAndBoundary.
  destruct (Go.HasPrefix contentType "multipart/x-mixed-replace").
  - destruct (boundaryLoop_dashes (Go.Split contentType ";")) as [-> |[v ->]].
    + by exists "frame".
    + by exists v.
  - by exists "frame".
Qed.

Lemma Getenv_godotenvLoad (dotenv env : gmap string string) (key : string) :
  Getenv (godotenvLoad dotenv env) key
  = match env !! key with
    | Some v => v
    | None => Getenv dotenv key
    end.
Proof.
  unfold Getenv, godotenvLoad. rewrite lookup_union.
  destruct (env !! key), (dotenv !! key); reflexivity.
Qed.

Section Environment.

Context {Image : Type}.

(** X13. A variable of the process environment shadows the [.env]
    file, also when it is empty: the URL of the client is the
    variable [MJPEG_URL] of the environment when that is set and not
    empty, the caller's URL when it is set and empty (whatever the
    file says), and only when it is not set at all the value of the
    file, if that is not empty. *)
Theorem environment_shadows_dotenv (dotenv env : gmap string string) (o : MjpegOpts) :
  let url := URL (opts (NewMjpeg (Image := Image) dotenv env o)) in
  (forall v, env !! "MJPEG_URL" = Some v -> v <> "" -> url = v)
  /\ (env !! "MJPEG_URL" = Some "" -> url = URL o)
  /\ (env !! "MJPEG_URL" = None ->
      url = overridden Some (Getenv dotenv "MJPEG_URL") (URL o)).
Proof.
  intros url.
  assert (url = overridden Some (Getenv (godotenvLoad dotenv env) "MJPEG_URL") (URL o)) as ->.
  { subst url. unfold NewMjpeg, setStatusCode. cbn [opts].
    rewrite loadEnvOverrides_blocks.
    repeat first [ rewrite overrideWith_same by reflexivity
                 | rewrite overrideWith_other by reflexivity ].
    reflexivity. }
  rewrite Getenv_godotenvLoad. unfold overridden.
  split; [|split].
  - intros v -> Hv. by rewrite bool_decide_eq_false_2.
  - intros ->. by rewrite bool_decide_eq_true_2.
  - by intros ->.
Qed.

End Environment.

Lemma overridden_twice {A : Type} (parse : string -> option A) (var : string) (given : A) :
  overridden parse var (overridden parse var given) = overridden parse var given.
Proof.
  unfold overridden. destruct (bool_decide (var = "")); [done|]. by destruct (parse var).
Qed.

Lemma MjpegOpts_ext (a b : MjpegOpts) :
  URL a = URL b -> AutoStopTimer a = AutoStopTimer b -> Resize a = Resize b ->
  Width a = Width b -> Height a = Height b -> EnableLog a = EnableLog b -> a = b.
Proof. destruct a, b. simpl. by intros -> -> -> -> -> ->. Qed.

(** X14. [loadEnvOverrides] leaves options alone when none of the six
    variables has a value that is not empty, and doing it twice is
    doing it once. *)
Theorem loadEnvOverrides_settles (env : gmap string string) (o : MjpegOpts) :
  loadEnvOverrides env (loadEnvOverrides env o) = loadEnvOverrides env o
  /\ (Forall (fun key => Getenv env key = "")
        ["MJPEG_URL"; "MJPEG_AUTOSTOP_TIMER"; "MJPEG_RESIZE"; "MJPEG_WIDTH"; "MJPEG_HEIGHT";
         "MJPEG_ENABLE_LOG"] ->
      loadEnvOverrides env o = o).
Proof.
  split.
  - apply MjpegOpts_ext;
      rewrite (loadEnvOverrides_blocks env (loadEnvOverrides env o));
      repeat first [ rewrite overrideWith_same by reflexivity
                   | rewrite overrideWith_other by reflexivity ];
      rewrite (loadEnvOverrides_blocks env o);
      repeat first [ rewrite overrideWith_same by reflexivity
                   | rewrite overrideWith_other by reflexivity ];
      apply overridden_twice.
  - intros H. repeat (apply Forall_cons_1 in H as [? H]).
    apply MjpegOpts_ext; rewrite loadEnvOverrides_blocks;
      repeat first [ rewrite overrideWith_same by reflexivity
                   | rewrite overrideWith_other by reflexivity ];
      unfold overridden; by rewrite bool_decide_eq_true_2.
Qed.

(** ** The watchdog and the first frame, together *)

Section TwoTimers.

Context {Image : Type}.
Variable jpegDecode : string -> option Image.
Implicit Types w : World (Image := Image).

(** X15. [ResetTimer] before the first frame does not take the place
    of the first-frame timer: when a decoder that has not yet armed
    the timer delivers a frame after a [ResetTimer] with a positive
    duration, it arms a second timer without stopping the first, and
    the client keeps hold of the second only. *)
Theorem reset_before_first_frame_arms_twice (newDuration : Z) (jpegData : string)
    (img : Image) (ch : Chan Image) w :
  0 < newDuration ->
  jpegData <> EmptyString ->
  jpegDecode jpegData = Some img ->
  ImageStream (m w) = Some ch ->
  closed ch = false ->
  (length (buf ch) < cap ch)%nat ->
  exists w',
    processAndSendImage jpegDecode jpegData false (ResetTimer newDuration w)
    = Some (w', true)
    /\ timers w' !! length (timers w) = Some (mkTimer (Go.Seconds newDuration) TimerArmed)
    /\ timers w' !! S (length (timers w))
       = Some (mkTimer (Go.Seconds newDuration) TimerArmed)
    /\ timer (m w') = Some (S (length (timers w))).
Proof.
  intros Hpos Hdata Hdec Hch Hopen Hroom.
  assert ((Go.len jpegData =? 0) = false) as Hlen.
  { destruct jpegData; [done|]. unfold Go.len. simpl. lia. }
  assert (ImageStream (m (ResetTimer newDuration w)) = Some ch) as Hch'.
  { unfold ResetTimer, afterFunc. by destruct (timer (m w)), (0 <? newDuration). }
  assert (AutoStopTimer (opts (m (ResetTimer newDuration w))) = newDuration) as Hdur.
  { unfold ResetTimer, afterFunc.
    destruct (Z.ltb_spec 0 newDuration); [|lia]. by destruct (timer (m w)). }
  pose proof (ResetTimer_timers newDuration w) as Hts.
  destruct (Z.ltb_spec 0 newDuration); [|lia].
  set (old := match timer (m w) with
              | Some i => alter stopTimer i (timers w)
              | None => timers w
              end) in Hts.
  assert (length old = length (timers w)) as Hold.
  { subst old. destruct (timer (m w)); by rewrite ?length_alter. }
  eexists. split.
  - unfold processAndSendImage, trySend. rewrite Hlen, Hdec, Hch', Hopen.
    apply Nat.ltb_lt in Hroom. rewrite Hroom. cbn [negb andb].
    cbn [with_m m opts set_ImageStream]. rewrite Hdur.
    destruct (Z.ltb_spec 0 newDuration); [|lia]. reflexivity.
  - unfold afterFunc. cbn [timers set_timers with_m m timer set_timer].
    rewrite Hts. split; [|split].
    + rewrite <- app_assoc. rewrite <- Hold. by apply list_lookup_middle.
    + rewrite <- Hold.
      replace (S (length old)) with (length (old ++ [mkTimer (Go.Seconds newDuration) TimerArmed]))
        by (rewrite length_app; simpl; lia).
      by apply list_lookup_middle.
    + f_equal. rewrite length_app, Hold. simpl. lia.
Qed.

End TwoTimers.

(** ** The draft and the present [decodeStream] *)

Section Drafts.

Context {Image : Type}.
Variable jpegDecode : string -> option Image.
Implicit Types w : World (Image := Image).
Implicit Types d : Decoder.

Lemma ReadFull_nothing (rd : Go.Reader) : Go.ReadFull rd 0 = (EmptyString, None, rd).
Proof. unfold Go.ReadFull. destruct rd as [u e]. simpl. by destruct u. Qed.

(** X16. Where the draft and the present loop agree: on a cycle that
    does not begin paused, with no command waiting, the draft does
    exactly what the present [decodeStream] does, unless the cycle
    meets a header block that cannot be read or a negative content
    length. *)
Theorem draft_agrees_on_sound_parts d w :
  statusCode (m w) <> StatusPaused ->
  (forall line rd1 n e rd2,
     Go.ReadString (reader d) = (line, None, rd1) ->
     Go.Contains line (boundary d) = true ->
     readImageHeaders rd1 = (n, e, rd2) ->
     e = None /\ 0 <= n) ->
  draftCycle jpegDecode None d w = decodeDefault jpegDecode d w.
Proof.
  intros Hplay Hsound.
  assert (decodeDefault jpegDecode d w = decodePart jpegDecode d w) as ->.
  { unfold decodeDefault. by destruct (statusCode (m w)). }
  unfold draftCycle, decodePart.
  destruct (Go.ReadString (reader d)) as [[line e] rd1] eqn:Hline.
  destruct e as [[]|]; [done..|]. cbn [set_reader boundary reader].
  destruct (Go.Contains line (boundary d)) eqn:Hbound; [|done].
  destruct (readImageHeaders rd1) as [[n e] rd2] eqn:Hhdr.
  destruct (Hsound line rd1 n e rd2 eq_refl Hbound Hhdr) as [-> Hn].
  cbn [set_reader boundary reader timerStarted exited].
  rewrite decide_False by done.
  destruct (Z.ltb_spec n 0); [lia|]. cbn [orb].
  destruct (Z.ltb_spec 0 n); [by destruct (Z.of_N (maxAlloc w) <? n)|].
  assert (n = 0) as -> by lia. change (Z.to_nat 0) with 0%nat.
  destruct (Z.ltb_spec (Z.of_N (maxAlloc w)) 0); [lia|].
  rewrite ReadFull_nothing. reflexivity.
Qed.

(** X17. In the draft a pause is seen behind the header block: a
    cycle that begins paused in front of a part reads the boundary
    line and the headers and leaves the payload in the stream, where
    the next cycles read it as lines; the present loop leaves the
    whole part unread. Neither delivers anything. *)
Theorem draft_pauses_behind_headers d w (line : string) (hdrs : list string)
    (blank rest : string) :
  statusCode (m w) = StatusPaused ->
  atPart d line hdrs blank rest ->
  draftCycle jpegDecode None d w
  = Some (set_reader (Go.mkReader rest (Go.atEnd (reader d))) d, w)
  /\ decodeDefault jpegDecode d w = Some (d, w).
Proof.
  intros Hpaused (Hrd & Hline & Hbound & Hhdrs & Hblank). split.
  - unfold draftCycle, Go.ReadString. rewrite Hrd, cutLine_line by done.
    cbn [set_reader boundary reader]. rewrite Hbound.
    rewrite (readImageHeaders_block hdrs blank rest _ Hhdrs Hblank).
    by rewrite decide_True.
  - unfold decodeDefault. by rewrite Hpaused.
Qed.

(** X18. In the draft a command that the decoder itself takes from
    the internal channel costs the part it was reading: the command
    is applied as in the present loop, and the cycle ends behind the
    header block without reading the payload. *)
Theorem draft_command_costs_the_part (control : StreamControl) d w (line : string)
    (hdrs : list string) (blank rest : string) :
  atPart d line hdrs blank rest ->
  draftCycle jpegDecode (Some control) d w
  = Some (set_reader (Go.mkReader rest (Go.atEnd (reader d))) d, decodeControl control w).
Proof.
  intros (Hrd & Hline & Hbound & Hhdrs & Hblank).
  unfold draftCycle, Go.ReadString. rewrite Hrd, cutLine_line by done.
  cbn [set_reader boundary reader]. rewrite Hbound.
  rewrite (readImageHeaders_block hdrs blank rest _ Hhdrs Hblank).
  by destruct control.
Qed.

(** X19. In the draft a header block that cannot be read ends the
    decoder: the status becomes [StatusError], the goroutine returns
    and the wait group is counted down, while the image channel stays
    as it is; the present loop stays in its loop instead. *)
Theorem draft_returns_on_header_error (control : option StreamControl) d w
    (line rest : string) (e : Go.error) :
  reader d = Go.mkReader (line +:+ String Go.nl rest) e ->
  noNewline line = true ->
  Go.Contains (line +:+ String Go.nl EmptyString) (boundary d) = true ->
  Unterminated rest ->
  1 <= wg (m w) ->
  exists d' w',
    draftCycle jpegDecode control d w = Some (d', w')
    /\ exited d' = true
    /\ statusCode (m w') = StatusError
    /\ wg (m w') = wg (m w) - 1
    /\ ImageStream (m w') = ImageStream (m w).
Proof.
  intros Hrd Hline Hbound Hrest Hwg.
  unfold draftCycle, Go.ReadString. rewrite Hrd. simpl.
  rewrite cutLine_line by done. simpl. rewrite Hbound.
  rewrite readImageHeaders_unterminated by done. simpl.
  unfold decodeStop. simpl. destruct (Z.ltb_spec (wg (m w)) 1); [lia|].
  eexists. eexists. split; [reflexivity|]. done.
Qed.

(** X20. The draft reads a payload only for a positive content
    length: a part with a negative or zero length is passed over
    without a panic, nothing is delivered and the status stays. *)
Theorem draft_passes_over_nonpositive_length d w (line : string) (hdrs : list string)
    (blank rest : string) :
  atPart d line hdrs blank rest ->
  lengthAfter hdrs 0 <= 0 ->
  draftCycle jpegDecode None d w
  = Some (set_reader (Go.mkReader rest (Go.atEnd (reader d))) d, w).
Proof.
  intros (Hrd & Hline & Hbound & Hhdrs & Hblank) Hn.
  unfold draftCycle, Go.ReadString. rewrite Hrd, cutLine_line by done.
  cbn [set_reader boundary reader]. rewrite Hbound.
  rewrite (readImageHeaders_block hdrs blank rest _ Hhdrs Hblank).
  destruct (decide (statusCode (m w) = StatusPaused)); [done|].
  by destruct (Z.ltb_spec 0 (lengthAfter hdrs 0)); [lia|].
Qed.

End Drafts.

Lemma status_updates_are_lossy_witness :
  let w := Sample.after Sample.get [CallStart; FetcherRecv 0 0] Sample.world in
  statusCode (m w) = StatusPlaying
  /\ statusChannel (m w) = [StatusStopped]
  /\ statusChannel (setStatusCode StatusPaused (m w)) = [StatusStopped].
Proof.
  intros w. split; [reflexivity|]. split; [reflexivity|].
  destruct (status_updates_are_lossy Sample.decode Sample.get Sample.limit ∅ ∅ Sample.options
              [CallStart; FetcherRecv 0 0] w StatusPaused) as (_ & _ & _ & Hkept).
  { vm_compute. reflexivity. }
  rewrite Hkept; [reflexivity|discriminate].
Defined.

Lemma no_restart_after_shutdown_witness :
  let w0 := Sample.after Sample.get
              [CallStart; FetcherRecv 0 0; DecoderDefault 0; CallStop; FetcherRecv 0 0;
               DecoderStop 0] Sample.world in
  let w := Sample.after Sample.get [FetcherWake 0] w0 in
  step Sample.decode Sample.get CallStart (Sample.after Sample.get [Consume; CallPause] w)
  = Panic.
Proof.
  intros w0 w.
  refine (proj1 (proj2 (no_restart_after_shutdown Sample.decode Sample.get 0 w0 w
                          [Consume; CallPause] _ _ _))).
  - vm_compute. reflexivity.
  - vm_compute. reflexivity.
Defined.

Lemma stop_is_final_witness :
  let w := Sample.after Sample.get
             [CallStart; FetcherRecv 0 0; CallStart; CallStop; FetcherRecv 0 1] Sample.world in
  let w' := Sample.after Sample.get [FetcherRecv 1 0; CallStop] w in
  step Sample.decode Sample.get (DecoderDefault 0) w' = Disabled
  /\ step Sample.decode Sample.get (DecoderBegin 0) w' = Disabled
  /\ step Sample.decode Sample.get (FetcherRecv 1 0) w' = Panic.
Proof.
  intros w w'.
  destruct (stop_is_final Sample.decode Sample.get [FetcherRecv 1 0; CallStop] w w')
    as (_ & Hnone & Hnone' & Hpanic).
  - reflexivity.
  - vm_compute. reflexivity.
  - split; [apply Hnone|]. split; [apply Hnone'|].
    apply (Hpanic 1%nat 0%nat None 3%nat); vm_compute; reflexivity.
Defined.

Lemma wait_group_counts_decoders_witness :
  let acts := [CallStart; FetcherRecv 0 0; CallStop; FetcherRecv 0 0] in
  let w := Sample.after Sample.get acts Sample.world in
  wg (m w) = 1
  /\ step Sample.decode Sample.get (DecoderStop 0) w <> Panic.
Proof.
  intros acts w.
  destruct (wait_group_counts_decoders Sample.decode Sample.get Sample.limit ∅ ∅ Sample.options acts w 0)
    as (Hwg & Hdone).
  { vm_compute. reflexivity. }
  split; [rewrite Hwg; reflexivity|exact Hdone].
Defined.

Lemma decoder_returns_only_when_stopped_witness :
  let w := Sample.after Sample.get [CallStart; FetcherRecv 0 0] Sample.world in
  let acts := [DecoderDefault 0; DecoderDefault 0; DecoderDefault 0; DecoderDefault 0;
               DecoderDefault 0; DecoderDefault 0; DecoderDefault 0; DecoderDefault 0] in
  exists d', decoders (Sample.after Sample.get acts w) !! 0%nat = Some d'
             /\ exited d' = false /\ Go.unread (reader d') = EmptyString.
Proof.
  intros w acts.
  destruct (decoder_returns_only_when_stopped Sample.decode Sample.get acts w
              (Sample.after Sample.get acts w) 0 (sampleDecoder Sample.stream))
    as (d' & Hd' & Hexit).
  - vm_compute. reflexivity.
  - reflexivity.
  - exists d'. split; [exact Hd'|].
    vm_compute in Hd'. injection Hd' as <-. split; reflexivity.
Defined.

Lemma environment_shadows_dotenv_witness :
  URL (opts (NewMjpeg (Image := string)
               {["MJPEG_URL" := "http://file/stream"]} {["MJPEG_URL" := ""]} Sample.options))
  = "http://camera/stream"
  /\ URL (opts (NewMjpeg (Image := string)
                  {["MJPEG_URL" := "http://file/stream"]} ∅ Sample.options))
     = "http://file/stream".
Proof.
  split.
  - apply (proj1 (proj2 (environment_shadows_dotenv (Image := string)
             {["MJPEG_URL" := "http://file/stream"]} {["MJPEG_URL" := ""]} Sample.options))).
    reflexivity.
  - rewrite (proj2 (proj2 (environment_shadows_dotenv (Image := string)
               {["MJPEG_URL" := "http://file/stream"]} ∅ Sample.options)))
      by reflexivity.
    reflexivity.
Defined.

Lemma loadEnvOverrides_settles_witness :
  loadEnvOverrides {["HOME" := "/root"]} Sample.options = Sample.options.
Proof.
  apply (proj2 (loadEnvOverrides_settles {["HOME" := "/root"]} Sample.options)).
  repeat constructor.
Defined.

Lemma reset_before_first_frame_arms_twice_witness :
  let w := Sample.after Sample.get [CallStart; FetcherRecv 0 0] Sample.world in
  exists w',
    processAndSendImage Sample.decode Sample.frameA false (ResetTimer 30 w) = Some (w', true)
    /\ timers w' = [mkTimer 30000000000 TimerArmed; mkTimer 30000000000 TimerArmed]
    /\ timer (m w') = Some 1%nat.
Proof.
  intros w.
  destruct (reset_before_first_frame_arms_twice Sample.decode 30 Sample.frameA Sample.frameA
              (mkChan 1 [] false) w) as (w' & Hsend & _ & _ & Hhandle);
    [lia | discriminate | reflexivity | reflexivity | reflexivity | simpl; lia |].
  exists w'. split; [exact Hsend|]. split; [|exact Hhandle].
  vm_compute in Hsend. injection Hsend as <-. reflexivity.
Defined.

Lemma draft_agrees_on_sound_parts_witness :
  draftCycle Sample.decode None (sampleDecoder Sample.stream) samplePlaying
  = decodeDefault Sample.decode (sampleDecoder Sample.stream) samplePlaying.
Proof.
  apply draft_agrees_on_sound_parts; [done|].
  intros line rd1 n e rd2 Hline Hbound Hhdr.
  vm_compute in Hline. injection Hline as <- <-.
  vm_compute in Hhdr. injection Hhdr as <- <- <-. split; [reflexivity|lia].
Defined.

Lemma draft_pauses_behind_headers_witness :
  let w := with_m (setStatusCode StatusPaused) Sample.world in
  draftCycle Sample.decode None (sampleDecoder (Sample.part Sample.frameA)) w
  = Some (sampleDecoder (Sample.frameA +:+ Sample.crlf), w).
Proof.
  exact (proj1 (draft_pauses_behind_headers Sample.decode
           (sampleDecoder (Sample.part Sample.frameA))
           (with_m (setStatusCode StatusPaused) Sample.world)
           ("--frame" +:+ cr) ["Content-Type: image/jpeg" +:+ cr; "Content-Length: 5" +:+ cr]
           cr (Sample.frameA +:+ Sample.crlf) eq_refl ltac:(sample_part))).
Defined.

Lemma draft_command_costs_the_part_witness :
  draftCycle Sample.decode (Some ResumeStream) (sampleDecoder (Sample.part Sample.frameA))
    samplePlaying
  = Some (sampleDecoder (Sample.frameA +:+ Sample.crlf),
          with_m (setStatusCode StatusPlaying) samplePlaying).
Proof.
  exact (draft_command_costs_the_part Sample.decode ResumeStream
           (sampleDecoder (Sample.part Sample.frameA)) samplePlaying
           ("--frame" +:+ cr) ["Content-Type: image/jpeg" +:+ cr; "Content-Length: 5" +:+ cr]
           cr (Sample.frameA +:+ Sample.crlf) ltac:(sample_part)).
Defined.

Lemma draft_returns_on_header_error_witness :
  let w := Sample.after Sample.getTruncated [CallStart; FetcherRecv 0 0] Sample.world in
  exists d' w',
    draftCycle Sample.decode None (sampleDecoder Sample.truncated) w = Some (d', w')
    /\ exited d' = true /\ wg (m w') = 0.
Proof.
  intros w.
  destruct (draft_returns_on_header_error Sample.decode None (sampleDecoder Sample.truncated) w
              ("--frame" +:+ cr)
              ("Content-Type: image/jpeg" +:+ Sample.crlf +:+ "Content-Length: 5") Go.EOF)
    as (d' & w' & Hcycle & Hexit & _ & Hwg & _).
  - vm_compute. reflexivity.
  - reflexivity.
  - vm_compute. reflexivity.
  - apply (Unterminated_line ("Content-Type: image/jpeg" +:+ cr) "Content-Length: 5").
    + reflexivity.
    + vm_compute. discriminate.
    + apply Unterminated_end. reflexivity.
  - vm_compute. discriminate.
  - exists d', w'. split; [exact Hcycle|]. split; [exact Hexit|]. rewrite Hwg. reflexivity.
Defined.

Lemma draft_passes_over_nonpositive_length_witness :
  draftCycle Sample.decode None
    (sampleDecoder ("--frame" +:+ Sample.crlf +:+ "Content-Length: -5" +:+ Sample.crlf
                    +:+ Sample.crlf +:+ Sample.frameA))
    samplePlaying
  = Some (sampleDecoder Sample.frameA, samplePlaying).
Proof.
  exact (draft_passes_over_nonpositive_length Sample.decode
           (sampleDecoder ("--frame" +:+ Sample.crlf +:+ "Content-Length: -5" +:+ Sample.crlf
                           +:+ Sample.crlf +:+ Sample.frameA))
           samplePlaying
           ("--frame" +:+ cr) ["Content-Length: -5" +:+ cr] cr Sample.frameA
           ltac:(sample_part) ltac:(vm_compute; discriminate)).
Defined.
